(** * Moonshot-GRP: the request-dispatch core and the OpenLiga adapter

    A shallow embedding of [app/decision_mapper.py],
    [app/providers/openliga.py], the endpoint of [app/main.py] and the
    request log of [app/middleware/logging.py], followed by the properties
    of the specification that concern them and by further properties of the
    code.

    Modelling conventions.
    - JSON-like Python values are the inductive type [json]; a [dict] is an
      association list in insertion order, looked up from the front.
    - Python [str] is [string], read as a sequence of code points below 256.
    - Python [float] quantities that the code computes with (tokens, clock
      readings, delays) are exact rationals [Q]: rounding is not modelled.
      The exceptions of float arithmetic that the code can meet are:
      [ZeroDivisionError] and the [OverflowError] of converting an [int]
      beyond the float range.
      A float that only travels inside JSON is kept as what the code can
      observe of it, its [repr] and its truth value.
    - Coroutines are run to completion one after the other: a computation is
      a function from the world before to a result and the world after.  The
      clock, the random source and the upstream server are an environment
      [Env] that answers the k-th query of each kind. *)

From Stdlib Require Import ZArith QArith Qminmax Qpower String Ascii List Bool.
From Stdlib Require Import DecimalString Lia Lqa.
Import ListNotations.

Set Warnings "-register-all".

Open Scope string_scope.
Open Scope list_scope.

(* ================================================================= *)
(** ** Python values *)

Record pyfloat : Type := mk_pyfloat {
  float_repr : string;      (* what [str(x)] returns *)
  float_nonzero : bool      (* what [bool(x)] returns *)
}.

Inductive json : Type :=
| JNull
| JBool (b : bool)
| JInt (z : Z)
| JFloat (x : pyfloat)
| JStr (s : string)
| JList (l : list json)
| JDict (d : list (string * json)).

Definition pydict : Type := list (string * json).

(** [key in d] and [d.get(key)] *)
Fixpoint dict_lookup (key : string) (d : pydict) : option json :=
  match d with
  | [] => None
  | (k, v) :: rest => if String.eqb k key then Some v else dict_lookup key rest
  end.

Definition dict_contains (key : string) (d : pydict) : bool :=
  match dict_lookup key d with Some _ => true | None => false end.

(** [d.get(key, default)] *)
Definition dict_get (key : string) (default : json) (d : pydict) : json :=
  match dict_lookup key d with Some v => v | None => default end.

(** [bool(v)] *)
Definition truthy (v : json) : bool :=
  match v with
  | JNull => false
  | JBool b => b
  | JInt z => negb (z =? 0)%Z
  | JFloat x => float_nonzero x
  | JStr s => negb (String.eqb s EmptyString)
  | JList l => match l with [] => false | _ :: _ => true end
  | JDict d => match d with [] => false | _ :: _ => true end
  end.

(** [str(z)] for an [int] *)
Definition int_str (z : Z) : string := NilZero.string_of_int (Z.to_int z).

Section PythonStr.

(** [repr] of a [str] (quoting and escaping) is the interpreter's business;
    the development is parametric in it. *)
Variable str_repr : string -> string.

Fixpoint py_repr (v : json) : string :=
  match v with
  | JNull => "None"
  | JBool b => if b then "True" else "False"
  | JInt z => int_str z
  | JFloat x => float_repr x
  | JStr s => str_repr s
  | JList l => "[" ++ String.concat ", " (map py_repr l) ++ "]"
  | JDict d =>
      "{" ++ String.concat ", "
               (map (fun kv => str_repr (fst kv) ++ ": " ++ py_repr (snd kv)) d)
          ++ "}"
  end%string.

(** [str(v)] *)
Definition py_str (v : json) : string :=
  match v with
  | JStr s => s
  | _ => py_repr v
  end.

End PythonStr.

(** [for x in v]: the items a [for] loop visits, or [None] when [v] is not
    iterable ([TypeError]). *)
Fixpoint chars (s : string) : list json :=
  match s with
  | EmptyString => []
  | String c rest => JStr (String c EmptyString) :: chars rest
  end.

Definition py_iter (v : json) : option (list json) :=
  match v with
  | JList l => Some l
  | JDict d => Some (map (fun kv => JStr (fst kv)) d)
  | JStr s => Some (chars s)
  | _ => None
  end.

(** [s.lower()] on code points below 256 *)
Definition lower_char (c : ascii) : ascii :=
  let n := N_of_ascii c in
  if ((65 <=? n) && (n <=? 90) ||
      (192 <=? n) && (n <=? 222) && negb (n =? 215))%N
  then ascii_of_N (n + 32) else c.

Fixpoint lower (s : string) : string :=
  match s with
  | EmptyString => EmptyString
  | String c rest => String (lower_char c) (lower rest)
  end.

(** [needle in hay] *)
Fixpoint contains (needle hay : string) : bool :=
  String.prefix needle hay ||
  match hay with
  | EmptyString => false
  | String _ rest => contains needle rest
  end.

(** [c.isspace()] on code points below 256 *)
Definition is_space (c : ascii) : bool :=
  let n := N_of_ascii c in
  ((9 <=? n) && (n <=? 13) || (28 <=? n) && (n <=? 32) ||
   (n =? 133) || (n =? 160))%N.

(** [not s.strip()] *)
Fixpoint is_blank (s : string) : bool :=
  match s with
  | EmptyString => true
  | String c rest => is_space c && is_blank rest
  end.

(* ================================================================= *)
(** ** Exceptions *)

(** The [ValueError]s of the service, by the message they are raised with. *)
Inductive value_error : Type :=
| HtmlInsteadOfJson (status : Z) (content_type : string)
    (* "API returned HTML instead of JSON. ..." *)
| EmptyResponse                        (* "Empty response from API" *)
| JsonParseFailure                     (* "Failed to parse JSON response. ..." *)
| TeamNotFound (team_id : json)        (* "Team {team_id} not found. ..." *)
| MatchNotInDefaultLeague (match_id : json)
    (* "Match {match_id} not found in default league" *)
| MatchNotFound (match_id : json).     (* "Match {match_id} not found. ..." *)

Inductive exn : Type :=
| TimeoutException                     (* httpx.TimeoutException *)
| NetworkError                         (* httpx.NetworkError *)
| HTTPStatusError (status : Z)         (* httpx.HTTPStatusError *)
| ClientError (cls : string)           (* any other exception of the HTTP client *)
| ValueError (msg : value_error)
| AttributeError
| TypeError
| ZeroDivisionError
| OverflowError
| UnboundLocalError.

Inductive Result (A : Type) : Type :=
| Ok (a : A)
| Raise (e : exn).
Arguments Ok {A} a.
Arguments Raise {A} e.

(* ================================================================= *)
(** ** app/decision_mapper.py *)

Definition validation : Type := (bool * option pydict)%type.

Definition _validate_list_leagues (payload : pydict) : validation :=
  (true, None).

Definition _validate_get_league_matches (payload : pydict) : validation :=
  if negb (dict_contains "leagueId" payload)
     || negb (truthy (dict_get "leagueId" JNull payload))
  then (false, Some [("missing_field", JStr "leagueId");
                     ("reason", JStr "leagueId is required")])
  else (true, None).

Definition _validate_get_team (payload : pydict) : validation :=
  if negb (dict_contains "teamId" payload)
     || negb (truthy (dict_get "teamId" JNull payload))
  then (false, Some [("missing_field", JStr "teamId");
                     ("reason", JStr "teamId is required")])
  else (true, None).

Definition _validate_get_match (payload : pydict) : validation :=
  if negb (dict_contains "matchId" payload)
     || negb (truthy (dict_get "matchId" JNull payload))
  then (false, Some [("missing_field", JStr "matchId");
                     ("reason", JStr "matchId is required")])
  else (true, None).

(** [isinstance(data, list)] and [isinstance(data, dict)] *)
Definition is_list (data : json) : bool :=
  match data with JList _ => true | _ => false end.

Definition is_dict (data : json) : bool :=
  match data with JDict _ => true | _ => false end.

(** [len(data)]; only ever called on a list here *)
Definition py_len (data : json) : Z :=
  match data with
  | JList l => Z.of_nat (length l)
  | JDict d => Z.of_nat (length d)
  | JStr s => Z.of_nat (String.length s)
  | _ => 0
  end.

Definition _normalize_list_leagues (data : json) : pydict :=
  [("leagues", if is_list data then data else JList []);
   ("count", JInt (if is_list data then py_len data else 0))].

Definition _normalize_get_league_matches (data : json) : pydict :=
  [("matches", if is_list data then data else JList []);
   ("count", JInt (if is_list data then py_len data else 0))].

Definition _normalize_get_team (data : json) : pydict :=
  [("team", if is_dict data then data else JDict [])].

Definition _normalize_get_match (data : json) : pydict :=
  [("match", if is_dict data then data else JDict [])].

(* ================================================================= *)
(** ** The world the provider runs in *)

(** app/providers/config.py; the values come from the process environment. *)
Record ProviderConfig : Type := {
  RATE_LIMIT_RPS : Q;
  RATE_LIMIT_BURST : Z;
  MAX_RETRIES : Z;
  BACKOFF_BASE_SECONDS : Q;
  BACKOFF_MAX_SECONDS : Q;
  JITTER_ENABLED : bool;
  OPENLIGA_BASE_URL : string
}.

(** An [httpx.Response], by the members the provider reads. *)
Record Response : Type := {
  status_code : Z;
  content_type : option string;   (* the content-type header, if present *)
  text : string;
  body_json : option json;        (* [json()]; [None] when it raises *)
  is_error : bool                 (* whether [raise_for_status()] raises *)
}.

(** What one call of [client.request] does. *)
Inductive Outcome : Type :=
| Returns (r : Response)
| Raises (e : exn).

Record Env : Type := {
  clock : nat -> Q;                            (* k-th [time.time()] *)
  rand : nat -> Q;                             (* k-th [random.random()] *)
  upstream : string -> string -> nat -> Outcome
    (* method, url, number of requests made before this one *)
}.

(** class TokenBucket *)
Record TokenBucket : Type := {
  rate : Q;          (* tokens per second *)
  burst : Q;         (* max tokens *)
  tokens : Q;
  last_update : Q
}.

Record World : Type := {
  rate_limiter : TokenBucket;
  time_reads : nat;        (* calls of [time.time()] so far *)
  rand_draws : nat;        (* calls of [random.random()] so far *)
  requests : nat;          (* calls of [client.request] so far *)
  slept : list Q;          (* arguments of [asyncio.sleep], latest first *)
  observed : list Q        (* values stored in [tokens], latest first *)
}.

(** A computation that may raise and that changes the world. *)
Definition M (A : Type) : Type := World -> Result A * World.

Definition ret {A} (a : A) : M A := fun w => (Ok a, w).

Definition raise {A} (e : exn) : M A := fun w => (Raise e, w).

Definition bind {A B} (m : M A) (k : A -> M B) : M B :=
  fun w =>
    match m w with
    | (Ok a, w') => k a w'
    | (Raise e, w') => (Raise e, w')
    end.

Notation "x <- m ;; k" := (bind m (fun x => k))
  (at level 61, m at next level, right associativity).
Notation "m ;;; k" := (bind m (fun _ => k))
  (at level 61, right associativity).

(** [a < b] on floats *)
Definition Qltb (a b : Q) : bool := negb (Qle_bool b a).

(** [min(a, b)]: the first argument unless the second is smaller *)
Definition py_min (a b : Q) : Q := if Qltb b a then b else a.

Definition with_bucket (b : TokenBucket) (w : World) : World :=
  {| rate_limiter := b; time_reads := time_reads w;
     rand_draws := rand_draws w; requests := requests w;
     slept := slept w; observed := observed w |}.

Definition get_bucket : M TokenBucket := fun w => (Ok (rate_limiter w), w).

(** [self.tokens = v] *)
Definition set_tokens (v : Q) : M unit :=
  fun w =>
    let b := rate_limiter w in
    (Ok tt,
     {| rate_limiter := {| rate := rate b; burst := burst b;
                           tokens := v; last_update := last_update b |};
        time_reads := time_reads w; rand_draws := rand_draws w;
        requests := requests w; slept := slept w;
        observed := v :: observed w |}).

(** [self.last_update = t] *)
Definition set_last_update (t : Q) : M unit :=
  fun w =>
    let b := rate_limiter w in
    (Ok tt,
     with_bucket {| rate := rate b; burst := burst b;
                    tokens := tokens b; last_update := t |} w).

(** [asyncio.sleep(d)] *)
Definition asyncio_sleep (d : Q) : M unit :=
  fun w =>
    (Ok tt,
     {| rate_limiter := rate_limiter w; time_reads := time_reads w;
        rand_draws := rand_draws w; requests := requests w;
        slept := d :: slept w; observed := observed w |}).

(** [a / b] on floats *)
Definition py_div (a b : Q) : M Q :=
  if Qeq_bool b 0 then raise ZeroDivisionError else ret (a / b)%Q.

(** [x * (2 ** attempt)] for a float [x].  For [attempt >= 0] the power is
    an [int], converted to a float for the product: from [2 ** 1024] on the
    conversion raises [OverflowError].  A negative [attempt] gives a float
    power. *)
Definition float_times_pow2 (x : Q) (attempt : Z) : M Q :=
  if (1024 <=? attempt)%Z then raise OverflowError
  else ret (x * 2 ^ attempt)%Q.

(** The world after one more call of [client.request]. *)
Definition request_made (w : World) : World :=
  {| rate_limiter := rate_limiter w; time_reads := time_reads w;
     rand_draws := rand_draws w; requests := S (requests w);
     slept := slept w; observed := observed w |}.

Section Provider.

Variable str_repr : string -> string.
Variable config : ProviderConfig.
Variable env : Env.

(** [time.time()] *)
Definition time_time : M Q :=
  fun w =>
    (Ok (clock env (time_reads w)),
     {| rate_limiter := rate_limiter w; time_reads := S (time_reads w);
        rand_draws := rand_draws w; requests := requests w;
        slept := slept w; observed := observed w |}).

(** [random.uniform(a, b)], that is [a + (b - a) * random()] *)
Definition random_uniform (a b : Q) : M Q :=
  fun w =>
    (Ok (a + (b - a) * rand env (rand_draws w))%Q,
     {| rate_limiter := rate_limiter w; time_reads := time_reads w;
        rand_draws := S (rand_draws w); requests := requests w;
        slept := slept w; observed := observed w |}).

(** [self.client.request(method, url)] *)
Definition client_request (method url : string) : M Response :=
  fun w =>
    match upstream env method url (requests w) with
    | Returns r => (Ok r, request_made w)
    | Raises e => (Raise e, request_made w)
    end.

(** TokenBucket.__init__ *)
Definition TokenBucket_init (rate burst now : Q) : TokenBucket :=
  {| rate := rate; burst := burst; tokens := burst; last_update := now |}.

(** The world right after a bucket has been built: its constructor has
    read the clock once and stored the first value of [tokens]. *)
Definition new_world (rate burst : Q) : World :=
  {| rate_limiter := TokenBucket_init rate burst (clock env 0);
     time_reads := 1; rand_draws := 0; requests := 0; slept := [];
     observed := [burst] |}.

(** OpenLigaProvider.__init__ *)
Definition OpenLigaProvider_init : World :=
  new_world (RATE_LIMIT_RPS config) (inject_Z (RATE_LIMIT_BURST config)).

(** TokenBucket.acquire *)
Definition acquire : M unit :=
  now <- time_time ;;
  self <- get_bucket ;;
  let elapsed := (now - last_update self)%Q in
  set_tokens (py_min (burst self) (tokens self + elapsed * rate self)%Q) ;;;
  set_last_update now ;;;
  self <- get_bucket ;;
  if Qle_bool 1 (tokens self) then
    set_tokens (tokens self - 1)%Q
  else
    wait_time <- py_div (1 - tokens self)%Q (rate self) ;;
    asyncio_sleep wait_time ;;;
    set_tokens 0%Q ;;;
    now <- time_time ;;
    set_last_update now.

(** OpenLigaProvider._calculate_backoff_delay *)
Definition _calculate_backoff_delay (attempt : Z) : M Q :=
  base_delay <- float_times_pow2 (BACKOFF_BASE_SECONDS config) attempt ;;
  if JITTER_ENABLED config then
    jitter <- random_uniform 0%Q (base_delay * (1 # 10))%Q ;;
    ret (py_min (base_delay + jitter)%Q (BACKOFF_MAX_SECONDS config))
  else
    ret (py_min base_delay (BACKOFF_MAX_SECONDS config)).

(** [except (httpx.TimeoutException, httpx.NetworkError)] *)
Definition is_network_fault (e : exn) : bool :=
  match e with
  | TimeoutException | NetworkError => true
  | _ => false
  end.

(** ["text/html" in content_type and response.status_code == 200], where
    [content_type] is the lower-cased header, [""] when there is none *)
Definition html_200 (response : Response) : bool :=
  let content_type :=
    lower (match content_type response with Some v => v | None => "" end) in
  contains "text/html" content_type && (status_code response =? 200)%Z.

(** [range(n)] *)
Definition range (n : Z) : list Z := map Z.of_nat (seq 0 (Z.to_nat n)).

(** The [for attempt in ...] loop of [_request_with_retry] and the two
    statements after it; [last_exception] and [response] are its locals,
    [response] being unbound until a request has returned. *)
Fixpoint retry_loop (method url : string) (attempts : list Z)
    (last_exception : option exn) (response : option Response)
    : M Response :=
  match attempts with
  | [] =>
      match last_exception, response with
      | Some e, _ => raise e
      | None, Some r => ret r
      | None, None => raise UnboundLocalError
      end
  | attempt :: rest =>
      acquire ;;;
      fun w =>
        match client_request method url w with
        | (Ok response, w1) =>
            (if html_200 response then
               raise (ValueError
                        (HtmlInsteadOfJson (status_code response)
                           (lower (match content_type response with
                                   | Some v => v | None => "" end))))
             else if (status_code response <? 500)%Z
                     && negb (status_code response =? 429)%Z then
               ret response
             else if (attempt <? MAX_RETRIES config)%Z then
               delay <- _calculate_backoff_delay attempt ;;
               asyncio_sleep delay ;;;
               retry_loop method url rest last_exception (Some response)
             else
               ret response) w1
        | (Raise e, w1) =>
            (if is_network_fault e then
               if (attempt <? MAX_RETRIES config)%Z then
                 delay <- _calculate_backoff_delay attempt ;;
                 asyncio_sleep delay ;;;
                 retry_loop method url rest (Some e) response
               else
                 raise e
             else
               raise e) w1
        end
  end.

(** OpenLigaProvider._request_with_retry *)
Definition _request_with_retry (method url : string) : M Response :=
  retry_loop method url (range (MAX_RETRIES config + 1)) None None.

(** [response.raise_for_status()] *)
Definition raise_for_status (response : Response) : M unit :=
  if is_error response then raise (HTTPStatusError (status_code response))
  else ret tt.

(** The part that [list_leagues] and [get_league_matches] share, word for
    word, after the request. *)
Definition parse_body (response : Response) : M json :=
  raise_for_status response ;;;
  let content := text response in
  if is_blank content then raise (ValueError EmptyResponse)
  else
    match body_json response with
    | Some v => ret v
    | None => raise (ValueError JsonParseFailure)
    end.

(** OpenLigaProvider.list_leagues *)
Definition list_leagues : M json :=
  response <- _request_with_retry "GET" "/getavailableleagues" ;;
  parse_body response.

(** OpenLigaProvider.get_league_matches *)
Definition get_league_matches (league_id : string) : M json :=
  response <- _request_with_retry "GET" ("/getmatchdata/" ++ league_id)%string ;;
  parse_body response.

(** [x.get(key, default)] on an arbitrary value: only a [dict] has [get] *)
Definition py_get (x : json) (key : string) (default : json) : Result json :=
  match x with
  | JDict d => Ok (dict_get key default d)
  | _ => Raise AttributeError
  end.

(** [str(match.get(side, {}).get("teamId")) == str(team_id)] *)
Definition team_matches (team_id : json) (side : string) (mtch : json)
    : Result bool :=
  match py_get mtch side (JDict []) with
  | Raise e => Raise e
  | Ok team =>
      match py_get team "teamId" JNull with
      | Raise e => Raise e
      | Ok v => Ok (String.eqb (py_str str_repr v) (py_str str_repr team_id))
      end
  end.

(** The inner [for match in matches] loop of [get_team]: the value it
    returns, [None] when it runs to its end. *)
Fixpoint team_loop (team_id : json) (matches : list json)
    : Result (option json) :=
  match matches with
  | [] => Ok None
  | mtch :: rest =>
      match team_matches team_id "team1" mtch with
      | Raise e => Raise e
      | Ok true => match py_get mtch "team1" (JDict []) with
                   | Ok t => Ok (Some t)
                   | Raise e => Raise e
                   end
      | Ok false =>
          match team_matches team_id "team2" mtch with
          | Raise e => Raise e
          | Ok true => match py_get mtch "team2" (JDict []) with
                       | Ok t => Ok (Some t)
                       | Raise e => Raise e
                       end
          | Ok false => team_loop team_id rest
          end
      end
  end.

Definition scan_for_team (team_id : json) (matches : json)
    : Result (option json) :=
  match py_iter matches with
  | None => Raise TypeError
  | Some items => team_loop team_id items
  end.

Definition common_leagues : list string := ["bl1"; "bl2"; "pl"; "sa"; "ll"].

(** The [for league_id in common_leagues] loop of [get_team], with its
    [try ... except Exception: continue], and the [raise] after it. *)
Fixpoint league_loop (team_id : json) (leagues : list string) : M json :=
  match leagues with
  | [] => raise (ValueError (TeamNotFound team_id))
  | league_id :: rest =>
      fun w =>
        match get_league_matches league_id w with
        | (Ok matches, w1) =>
            match scan_for_team team_id matches with
            | Ok (Some team) => (Ok team, w1)
            | Ok None => league_loop team_id rest w1
            | Raise _ => league_loop team_id rest w1
            end
        | (Raise _, w1) => league_loop team_id rest w1
        end
  end.

(** OpenLigaProvider.get_team *)
Definition get_team (team_id : json) : M json :=
  league_loop team_id common_leagues.

(** The [for match in matches] loop of [get_match] and the [raise] after
    it. *)
Fixpoint match_loop (match_id : json) (matches : list json) : Result json :=
  match matches with
  | [] => Raise (ValueError (MatchNotInDefaultLeague match_id))
  | mtch :: rest =>
      match py_get mtch "matchID" JNull with
      | Raise e => Raise e
      | Ok v =>
          if String.eqb (py_str str_repr v) (py_str str_repr match_id)
          then Ok mtch
          else match_loop match_id rest
      end
  end.

(** OpenLigaProvider.get_match *)
Definition get_match (match_id : json) : M json :=
  fun w =>
    match get_league_matches "bl1" w with
    | (Ok matches, w1) =>
        match py_iter matches with
        | None => (Raise (ValueError (MatchNotFound match_id)), w1)
        | Some items =>
            match match_loop match_id items with
            | Ok mtch => (Ok mtch, w1)
            | Raise _ => (Raise (ValueError (MatchNotFound match_id)), w1)
            end
        end
    | (Raise _, w1) => (Raise (ValueError (MatchNotFound match_id)), w1)
    end.

End Provider.

(* ================================================================= *)
(** ** app/decision_mapper.py: the registry and the execute step *)

(** What the execute step of an operation can raise: whatever the provider
    raises, or [KeyError] from [payload[key]]. *)
Inductive Raised : Type :=
| FromProvider (e : exn)
| KeyError (key : string).

Inductive Executed (A : Type) : Type :=
| Done (a : A)
| Failed (e : Raised).
Arguments Done {A} a.
Arguments Failed {A} e.

Definition from_provider {A} (m : M A) : World -> Executed A * World :=
  fun w =>
    match m w with
    | (Ok a, w') => (Done a, w')
    | (Raise e, w') => (Failed (FromProvider e), w')
    end.

(** One entry of [self.operations] *)
Record Operation : Type := {
  validate : pydict -> validation;
  execute : pydict -> World -> Executed json * World;
  normalize : json -> pydict
}.

(** [get_operation] returns the entry or raises
    [ValueError(f"Unknown operationType: {operation_type}")]. *)
Inductive Registered : Type :=
| Found (operation : Operation)
| UnknownOperationType (message : string).

Section DecisionMapper.

Variable str_repr : string -> string.
Variable config : ProviderConfig.
Variable env : Env.

Definition _execute_list_leagues (payload : pydict)
    : World -> Executed json * World :=
  from_provider (list_leagues config env).

(** [get_league_matches] formats its argument into the URL, which for a
    value that is not a string goes through [str]. *)
Definition _execute_get_league_matches (payload : pydict)
    : World -> Executed json * World :=
  fun w =>
    match dict_lookup "leagueId" payload with
    | None => (Failed (KeyError "leagueId"), w)
    | Some league_id =>
        from_provider
          (get_league_matches config env (py_str str_repr league_id)) w
    end.

Definition _execute_get_team (payload : pydict)
    : World -> Executed json * World :=
  fun w =>
    match dict_lookup "teamId" payload with
    | None => (Failed (KeyError "teamId"), w)
    | Some team_id => from_provider (get_team str_repr config env team_id) w
    end.

Definition _execute_get_match (payload : pydict)
    : World -> Executed json * World :=
  fun w =>
    match dict_lookup "matchId" payload with
    | None => (Failed (KeyError "matchId"), w)
    | Some match_id => from_provider (get_match str_repr config env match_id) w
    end.

(** [self.operations], as built by [DecisionMapper.__init__] *)
Definition operations : list (string * Operation) :=
  [("ListLeagues",
    {| validate := _validate_list_leagues;
       execute := _execute_list_leagues;
       normalize := _normalize_list_leagues |});
   ("GetLeagueMatches",
    {| validate := _validate_get_league_matches;
       execute := _execute_get_league_matches;
       normalize := _normalize_get_league_matches |});
   ("GetTeam",
    {| validate := _validate_get_team;
       execute := _execute_get_team;
       normalize := _normalize_get_team |});
   ("GetMatch",
    {| validate := _validate_get_match;
       execute := _execute_get_match;
       normalize := _normalize_get_match |})].

Fixpoint lookup_operation (operation_type : string)
    (table : list (string * Operation)) : option Operation :=
  match table with
  | [] => None
  | (name, operation) :: rest =>
      if String.eqb name operation_type then Some operation
      else lookup_operation operation_type rest
  end.

(** DecisionMapper.get_operation *)
Definition get_operation (operation_type : string) : Registered :=
  match lookup_operation operation_type operations with
  | Some operation => Found operation
  | None =>
      UnknownOperationType ("Unknown operationType: " ++ operation_type)%string
  end.

End DecisionMapper.

(* ================================================================= *)
(** ** app/main.py: the /proxy/execute endpoint *)

(** One call of [AuditLogger.log], by its keyword arguments. *)
Record AuditCall : Type := {
  log_request_id : string;
  log_operation_type : string;
  log_validation_outcome : option pydict;
  log_provider : option string;
  log_target_url : option string;
  log_upstream_status_code : option Z;
  log_latency_ms : option Q;
  log_final_outcome : option string;
  log_error : option string
}.

(** What the endpoint hands back to the framework: a [ProxyResponse], sent
    with status 200, or an [HTTPException]. *)
Inductive HttpOutcome : Type :=
| ProxyResponse (success : bool) (data : pydict) (requestId : string)
| HTTPException (status : Z) (detail : pydict).

Section Main.

Variable str_repr : string -> string.

(** The text of an exception that the model does not determine: the message
    of a library exception and, for the two [ValueError]s that quote the
    upstream, the quoted part. *)
Variable detail_text : exn -> string.

Variable config : ProviderConfig.
Variable env : Env.

(** [str(e)] *)
Definition exn_message (e : exn) : string :=
  match e with
  | ValueError EmptyResponse => "Empty response from API"
  | ValueError (TeamNotFound team_id) =>
      "Team " ++ py_str str_repr team_id
      ++ " not found. OpenLiga API requires searching through league matches. "
      ++ "Consider using get_league_matches with a specific leagueId and extracting team information from matches."
  | ValueError (MatchNotInDefaultLeague match_id) =>
      "Match " ++ py_str str_repr match_id ++ " not found in default league"
  | ValueError (MatchNotFound match_id) =>
      "Match " ++ py_str str_repr match_id
      ++ " not found. OpenLiga API requires leagueId to search matches. "
      ++ "Consider using get_league_matches with a specific leagueId and filtering."
  | ValueError (HtmlInsteadOfJson status content_type) =>
      "API returned HTML instead of JSON. Status: " ++ int_str status
      ++ ", Content-Type: " ++ content_type ++ ", URL: " ++ detail_text e
  | ValueError JsonParseFailure =>
      "Failed to parse JSON response. Status: " ++ detail_text e
  | _ => detail_text e
  end%string.

Definition raised_message (e : Raised) : string :=
  match e with
  | FromProvider e => exn_message e
  | KeyError key => str_repr key
  end.

(** [request.headers.get("X-Request-ID") or str(uuid.uuid4())] *)
Definition request_id_of (x_request_id : option string) (uuid : string)
    : string :=
  match x_request_id with
  | Some s => if String.eqb s "" then uuid else s
  | None => uuid
  end.

Definition audit (request_id operation_type : string) : AuditCall :=
  {| log_request_id := request_id; log_operation_type := operation_type;
     log_validation_outcome := None; log_provider := None;
     log_target_url := None; log_upstream_status_code := None;
     log_latency_ms := None; log_final_outcome := None; log_error := None |}.

(** [f"{ProviderConfig().OPENLIGA_BASE_URL}/..."] *)
Definition target_url : string := (OPENLIGA_BASE_URL config ++ "/...")%string.

(** The [except] clauses around the execute step, in their order. *)
Definition on_failure (request_id operation_type : string) (latency_ms : Q)
    (e : Raised) : HttpOutcome * AuditCall :=
  match e with
  | FromProvider (HTTPStatusError status) =>
      (HTTPException 502 [("error", JStr "Upstream API failed");
                          ("requestId", JStr request_id)],
       {| log_request_id := request_id; log_operation_type := operation_type;
          log_validation_outcome := None; log_provider := Some "OpenLiga";
          log_target_url := Some target_url;
          log_upstream_status_code := Some status;
          log_latency_ms := Some latency_ms;
          log_final_outcome := Some "error";
          log_error := Some "Upstream API failed" |})
  | FromProvider (TimeoutException as e') | FromProvider (NetworkError as e') =>
      (HTTPException 502 [("error", JStr "Upstream API failed");
                          ("requestId", JStr request_id)],
       {| log_request_id := request_id; log_operation_type := operation_type;
          log_validation_outcome := None; log_provider := Some "OpenLiga";
          log_target_url := Some target_url;
          log_upstream_status_code := None;
          log_latency_ms := Some latency_ms;
          log_final_outcome := Some "error";
          log_error := Some ("Network error: " ++ exn_message e')%string |})
  | FromProvider (ValueError _ as e') =>
      let error_msg := exn_message e' in
      let status := if contains "not found" (lower error_msg)
                    then 404%Z else 400%Z in
      (HTTPException status [("error", JStr error_msg);
                             ("requestId", JStr request_id)],
       {| log_request_id := request_id; log_operation_type := operation_type;
          log_validation_outcome := None; log_provider := Some "OpenLiga";
          log_target_url := None; log_upstream_status_code := None;
          log_latency_ms := Some latency_ms;
          log_final_outcome := Some "error";
          log_error := Some error_msg |})
  | _ =>
      (HTTPException 500 [("error", JStr "Internal server error");
                          ("requestId", JStr request_id)],
       {| log_request_id := request_id; log_operation_type := operation_type;
          log_validation_outcome := None; log_provider := Some "OpenLiga";
          log_target_url := None; log_upstream_status_code := None;
          log_latency_ms := Some latency_ms;
          log_final_outcome := Some "error";
          log_error := Some (raised_message e) |})
  end.

(** execute_proxy: the outcome, the calls of [AuditLogger.log] in the order
    they are made, and the world afterwards. *)
Definition execute_proxy (x_request_id : option string) (uuid : string)
    (operation_type : string) (payload : pydict)
    : World -> (HttpOutcome * list AuditCall) * World :=
  fun w =>
    let request_id := request_id_of x_request_id uuid in
    let start_time := clock env (time_reads w) in
    let w := snd (time_time env w) in
    match get_operation str_repr config env operation_type with
    | UnknownOperationType error_msg =>
        ((HTTPException 400 [("error", JStr error_msg);
                             ("requestId", JStr request_id)],
          [{| log_request_id := request_id;
              log_operation_type := operation_type;
              log_validation_outcome :=
                Some [("pass", JBool false);
                      ("reasons", JList [JStr error_msg])];
              log_provider := None; log_target_url := None;
              log_upstream_status_code := None; log_latency_ms := None;
              log_final_outcome := Some "error";
              log_error := Some error_msg |}]),
         w)
    | Found operation =>
        match validate operation payload with
        | (false, None) =>
            (* [validation_details.get] on [None]: caught by the outermost
               [except Exception] *)
            let latency_ms := ((clock env (time_reads w) - start_time) * 1000)%Q in
            ((HTTPException 500 [("error", JStr "Internal server error");
                                 ("requestId", JStr request_id)],
              [{| log_request_id := request_id;
                  log_operation_type := operation_type;
                  log_validation_outcome := None;
                  log_provider := None; log_target_url := None;
                  log_upstream_status_code := None;
                  log_latency_ms := Some latency_ms;
                  log_final_outcome := Some "error";
                  log_error := Some (exn_message AttributeError) |}]),
             snd (time_time env w))
        | (false, Some validation_details) =>
            ((HTTPException 400 [("error", JStr "Validation failed");
                                 ("details", JDict validation_details);
                                 ("requestId", JStr request_id)],
              [{| log_request_id := request_id;
                  log_operation_type := operation_type;
                  log_validation_outcome :=
                    Some [("pass", JBool false);
                          ("reasons",
                           JList [dict_get "reason" (JStr "Validation failed")
                                    validation_details])];
                  log_provider := None; log_target_url := None;
                  log_upstream_status_code := None; log_latency_ms := None;
                  log_final_outcome := Some "error";
                  log_error := Some "Validation failed" |}]),
             w)
        | (true, _) =>
            let passed :=
              {| log_request_id := request_id;
                 log_operation_type := operation_type;
                 log_validation_outcome := Some [("pass", JBool true)];
                 log_provider := Some "OpenLiga"; log_target_url := None;
                 log_upstream_status_code := None; log_latency_ms := None;
                 log_final_outcome := None; log_error := None |} in
            let upstream_start := clock env (time_reads w) in
            let w := snd (time_time env w) in
            match execute operation payload w with
            | (Done result, w) =>
                let upstream_latency :=
                  ((clock env (time_reads w) - upstream_start) * 1000)%Q in
                let w := snd (time_time env w) in
                let normalized_data := normalize operation result in
                ((ProxyResponse true normalized_data request_id,
                  [passed;
                   {| log_request_id := request_id;
                      log_operation_type := operation_type;
                      log_validation_outcome := None;
                      log_provider := Some "OpenLiga";
                      log_target_url := Some target_url;
                      log_upstream_status_code := Some 200%Z;
                      log_latency_ms := Some upstream_latency;
                      log_final_outcome := Some "success";
                      log_error := None |}]),
                 w)
            | (Failed e, w) =>
                let latency_ms :=
                  ((clock env (time_reads w) - start_time) * 1000)%Q in
                let w := snd (time_time env w) in
                let (outcome, failed) :=
                  on_failure request_id operation_type latency_ms e in
                ((outcome, [passed; failed]), w)
            end
        end
    end.

End Main.

(* ================================================================= *)
(** ** app/middleware/logging.py: what is logged of a request *)

Definition SENSITIVE_HEADERS : list string :=
  ["authorization"; "api-key"; "x-api-key"; "cookie"; "set-cookie";
   "x-auth-token"; "x-access-token"].

(** [key in names] *)
Definition str_in (key : string) (names : list string) : bool :=
  existsb (String.eqb key) names.

(** [d[key] = v]: the value of an existing key is replaced where it stands, a
    new key goes to the end. *)
Fixpoint dict_set (key : string) (v : json) (d : pydict) : pydict :=
  match d with
  | [] => [(key, v)]
  | (k, x) :: rest =>
      if String.eqb k key then (k, v) :: rest
      else (k, x) :: dict_set key v rest
  end.

(** The [for key, value in request.headers.items()] loop of [_log_request],
    from the dictionary built so far. *)
Fixpoint sanitize_loop (items : list (string * string))
    (sanitized_headers : pydict) : pydict :=
  match items with
  | [] => sanitized_headers
  | (key, value) :: rest =>
      sanitize_loop rest
        (if negb (str_in (lower key) SENSITIVE_HEADERS)
         then dict_set key (JStr value) sanitized_headers
         else dict_set key (JStr "[REDACTED]") sanitized_headers)
  end.

(** [s[:n]] *)
Fixpoint str_take (n : nat) (s : string) : string :=
  match n, s with
  | S k, String c rest => String c (str_take k rest)
  | _, _ => EmptyString
  end.

(** The preview that [dispatch] computes for a non-empty body: [decoded] is
    [body.decode("utf-8")], [None] when it raises. *)
Definition preview_of (decoded : option string) : string :=
  match decoded with
  | Some body_str =>
      if (500 <? String.length body_str)%nat then str_take 500 body_str
      else body_str
  | None => "[BINARY]"
  end.

(** RequestResponseLoggingMiddleware._log_request: the entry it prints. *)
Definition _log_request (headers : list (string * string))
    (method path request_id : string) (body_size : Z)
    (body_preview : option string) : pydict :=
  let sanitized_headers := sanitize_loop headers [] in
  let log_entry :=
    [("type", JStr "request"); ("requestId", JStr request_id);
     ("method", JStr method); ("path", JStr path);
     ("headers", JDict sanitized_headers); ("bodySize", JInt body_size)] in
  match body_preview with
  | Some preview =>
      if truthy (JStr preview)
      then dict_set "bodyPreview" (JStr preview) log_entry
      else log_entry
  | None => log_entry
  end.

(** The value last given for [key] among header items. *)
Fixpoint last_value (key : string) (items : list (string * string))
    : option string :=
  match items with
  | [] => None
  | (k, v) :: rest =>
      match last_value key rest with
      | Some v' => Some v'
      | None => if String.eqb k key then Some v else None
      end
  end.

(* ================================================================= *)
(** ** Specification-side vocabulary *)

(** A payload field is required to be present and non-empty.  "Empty" read
    literally: nothing, or a string, list or map without content. *)
Definition is_empty (v : json) : bool :=
  match v with
  | JNull => true
  | JStr s => String.eqb s ""
  | JList [] => true
  | JDict [] => true
  | _ => false
  end.

Definition absent_or_empty (field : string) (payload : pydict) : bool :=
  match dict_lookup field payload with
  | None => true
  | Some v => is_empty v
  end.

(** What the validators go by instead: Python's truth value. *)
Definition absent_or_falsy (field : string) (payload : pydict) : bool :=
  match dict_lookup field payload with
  | None => true
  | Some v => negb (truthy v)
  end.

(** The details of a failed validation for [field]. *)
Definition missing (field : string) : validation :=
  (false, Some [("missing_field", JStr field);
                ("reason", JStr (field ++ " is required")%string)]).

(** The content of a list, the empty list for anything else; likewise for
    maps. *)
Definition list_or_empty (data : json) : list json :=
  match data with JList l => l | _ => [] end.

Definition dict_or_empty (data : json) : pydict :=
  match data with JDict d => d | _ => [] end.

Definition payload_zero_league : pydict := [("leagueId", JInt 0)].

(** The level the bucket is refilled to when [acquire] is entered in world
    [w]: [min(capacity, tokens + elapsed * refillRate)]. *)
Definition refill_level (env : Env) (w : World) : Q :=
  let b := rate_limiter w in
  Qmin (burst b)
       (tokens b + (clock env (time_reads w) - last_update b) * rate b).

(** [n] calls of [acquire], one after the other. *)
Fixpoint acquire_many (env : Env) (n : nat) (w : World) : World :=
  match n with
  | O => w
  | S k => acquire_many env k (snd (acquire env w))
  end.

(** The clock never runs backwards: elapsed times are non-negative. *)
Definition monotone_clock (env : Env) : Prop :=
  forall i j, (i <= j)%nat -> (clock env i <= clock env j)%Q.

Definition within (capacity v : Q) : Prop := (0 <= v /\ v <= capacity)%Q.

(** The delay a run of [_calculate_backoff_delay] returned. *)
Definition delay_of (r : Result Q * World) : Q :=
  match fst r with Ok d => d | Raise _ => 0 end.

(** What every call of [acquire] preserves. *)
Definition bucket_inv (env : Env) (w : World) : Prop :=
  let b := rate_limiter w in
  (0 <= rate b)%Q /\ (0 <= burst b)%Q /\
  within (burst b) (tokens b) /\
  (last_update b <= clock env (time_reads w))%Q /\
  Forall (within (burst b)) (observed w).

(** The status is 429 or at least 500: the response is worth a retry. *)
Definition retryable_status (r : Response) : bool :=
  negb ((status_code r <? 500)%Z && negb (status_code r =? 429)%Z).

(** An outcome after which the retry loop goes on while attempts remain. *)
Definition retryable (o : Outcome) : Prop :=
  match o with
  | Returns r => html_200 r = false /\ retryable_status r = true
  | Raises e => is_network_fault e = true
  end.

(** [settles o res last]: the call ends with [res] on an attempt whose
    outcome is [o]; [last] says that no attempt remained. *)
Definition settles (o : Outcome) (res : Result Response) (last : Prop)
    : Prop :=
  match o, res with
  | Returns r, Ok r' =>
      r' = r /\ html_200 r = false /\ (retryable_status r = true -> last)
  | Returns r, Raise e =>
      html_200 r = true /\
      e = ValueError
            (HtmlInsteadOfJson (status_code r)
               (lower (match content_type r with Some v => v | None => "" end)))
  | Raises e, Raise e' => e' = e /\ (is_network_fault e = true -> last)
  | Raises _, Ok _ => False
  end.


(** The k-th request overall was made between world [w] and world [w']. *)
Definition issued (w w' : World) (k : nat) : Prop :=
  (requests w <= k < requests w')%nat.




(** The value a loop returned, if it returned one. *)
Definition returned {A} (r : Result (option A)) : option A :=
  match r with
  | Ok (Some x) => Some x
  | _ => None
  end.

(** A configuration and an upstream for the examples. *)
Definition default_config : ProviderConfig :=
  {| RATE_LIMIT_RPS := 1 # 4; RATE_LIMIT_BURST := 5; MAX_RETRIES := 3;
     BACKOFF_BASE_SECONDS := 1; BACKOFF_MAX_SECONDS := 30;
     JITTER_ENABLED := true;
     OPENLIGA_BASE_URL := "https://api.openligadb.de" |}.

(** A server that drops every connection mid-response, which the client
    reports as a protocol error. *)
Definition env_protocol_error : Env :=
  {| clock := fun k => inject_Z (Z.of_nat k);
     rand := fun _ => 1 # 2;
     upstream := fun _ _ _ => Raises (ClientError "RemoteProtocolError") |}.

Definition world_protocol_error : World :=
  OpenLigaProvider_init default_config env_protocol_error.

(** A match object as the upstream documents it: a map whose [team1] and
    [team2], where present, are maps.  A match list is a list of them. *)
Definition match_object (v : json) : bool :=
  match v with
  | JDict m =>
      is_dict (dict_get "team1" (JDict []) m)
      && is_dict (dict_get "team2" (JDict []) m)
  | _ => false
  end.

Definition match_list (v : json) : bool :=
  match v with
  | JList l => forallb match_object l
  | _ => false
  end.

(** The team objects of a league's matches in scan order: match by match,
    [team1] before [team2], an empty map standing for a missing side. *)
Definition teams_of (mtch : json) : list json :=
  match mtch with
  | JDict m => [dict_get "team1" (JDict []) m; dict_get "team2" (JDict []) m]
  | _ => []
  end.

Definition scanned_teams (data : json) : list json :=
  flat_map teams_of (list_or_empty data).

Section Scan.

Variable str_repr : string -> string.
Variable config : ProviderConfig.
Variable env : Env.

(** Identifiers are compared as strings; an absent one reads "None". *)
Definition same_id (key : string) (id : json) (obj : json) : bool :=
  String.eqb (py_str str_repr (dict_get key JNull (dict_or_empty obj)))
             (py_str str_repr id).

(** The first team object of a league, in scan order, that goes by
    [team_id]; the first match that goes by [match_id]. *)
Definition first_team (team_id : json) (data : json) : option json :=
  find (same_id "teamId" team_id) (scanned_teams data).

Definition first_match (match_id : json) (data : json) : option json :=
  find (same_id "matchID" match_id) (list_or_empty data).

(** The objects the scan of a league for a team looks at, in order: the
    two sides of every match, and an entry that is not a map as it is. *)
Definition examined_teams (items : list json) : list json :=
  flat_map (fun item => match item with
                        | JDict _ => teams_of item
                        | _ => [item]
                        end) items.

(** A scan ends at the first object that is not a map, where it breaks, or
    that goes by the identifier, which is a hit. *)
Definition ends_scan (key : string) (id : json) (obj : json) : bool :=
  negb (is_dict obj) || same_id key id obj.

Definition scan_yield (key : string) (id : json) (objs : list json)
    : option json :=
  match find (ends_scan key id) objs with
  | Some obj => if is_dict obj then Some obj else None
  | None => None
  end.

(** What the scan of one league's data yields: the hit it ends at, if it
    ends at one. *)
Definition team_yield (team_id : json) (data : json) : option json :=
  match py_iter data with
  | Some items => scan_yield "teamId" team_id (examined_teams items)
  | None => None
  end.

Definition match_yield (match_id : json) (data : json) : option json :=
  match py_iter data with
  | Some items => scan_yield "matchID" match_id items
  | None => None
  end.

(** The scan as the specification words it: go through the candidate
    leagues in order; fetch each one's matches; a league whose fetch
    fails is skipped; the first hit wins; with no hit anywhere, fail with
    [not_found]. *)
Fixpoint scan_candidates (hit : json -> option json) (not_found : exn)
    (candidates : list string) : M json :=
  match candidates with
  | [] => raise not_found
  | league_id :: rest =>
      fun w =>
        match get_league_matches config env league_id w with
        | (Raise _, w1) => scan_candidates hit not_found rest w1
        | (Ok data, w1) =>
            match hit data with
            | Some found => (Ok found, w1)
            | None => scan_candidates hit not_found rest w1
            end
        end
  end.

End Scan.

(** Scenario: league bl1 is unreachable, league bl2 has one match between
    team 40 and team X, every other league answers 500. *)
Definition team_x : json :=
  JDict [("teamId", JStr "X"); ("teamName", JStr "FC X")].

Definition team_unnamed : json := JDict [("teamName", JStr "Nameless")].

Definition json_response (v : json) : Response :=
  {| status_code := 200; content_type := Some "application/json";
     text := "[...]"; body_json := Some v; is_error := false |}.

Definition error_response (status : Z) : Response :=
  {| status_code := status; content_type := None; text := "";
     body_json := None; is_error := true |}.

Definition match_7 : json :=
  JDict [("matchID", JInt 7);
         ("team1", JDict [("teamId", JInt 40)]);
         ("team2", team_x)].

Definition bl2_matches : json :=
  JList [match_7;
         JDict [("matchID", JInt 8);
                ("team1", team_unnamed);
                ("team2", JDict [("teamId", JInt 40)])]].

Definition env_bl1_down : Env :=
  {| clock := fun k => inject_Z (Z.of_nat k);
     rand := fun _ => 1 # 2;
     upstream := fun _ url _ =>
       if String.eqb url "/getmatchdata/bl1" then Raises NetworkError
       else if String.eqb url "/getmatchdata/bl2"
            then Returns (json_response bl2_matches)
            else Returns (error_response 500) |}.

(** [repr] of a string without quotes, backslashes or control characters *)
Definition plain_repr (s : string) : string := ("'" ++ s ++ "'")%string.

Definition html_response : Response :=
  {| status_code := 200; content_type := Some "Text/HTML; charset=utf-8";
     text := "<html>maintenance</html>"; body_json := None;
     is_error := false |}.

(** A server that answers 500 once and then serves an HTML page with
    status 200. *)
Definition env_html_after_500 : Env :=
  {| clock := fun k => inject_Z (Z.of_nat k);
     rand := fun _ => 1 # 2;
     upstream := fun _ _ k =>
       match k with
       | O => Returns (error_response 500)
       | S _ => Returns html_response
       end |}.

Definition world_bl1_down : World :=
  OpenLigaProvider_init default_config env_bl1_down.

Definition world_html_after_500 : World :=
  OpenLigaProvider_init default_config env_html_after_500.

(** [n] calls of [acquire], one after the other, with what each one did. *)
Fixpoint acquire_each (env : Env) (n : nat) (w : World)
    : list (Result unit) * World :=
  match n with
  | O => ([], w)
  | S k =>
      let (r, w1) := acquire env w in
      let (rs, w2) := acquire_each env k w1 in
      (r :: rs, w2)
  end.

(** More scenarios: a configuration without a single attempt, an upstream
    that answers with a JSON object where a list is expected, library texts
    left empty, and a request with credentials. *)
Definition config_no_attempt : ProviderConfig :=
  {| RATE_LIMIT_RPS := 1 # 4; RATE_LIMIT_BURST := 5; MAX_RETRIES := -1;
     BACKOFF_BASE_SECONDS := 1; BACKOFF_MAX_SECONDS := 30;
     JITTER_ENABLED := true;
     OPENLIGA_BASE_URL := "https://api.openligadb.de" |}.

Definition object_body : json := JDict [("message", JStr "maintenance")].

Definition env_object_body : Env :=
  {| clock := fun k => inject_Z (Z.of_nat k);
     rand := fun _ => 1 # 2;
     upstream := fun _ _ _ => Returns (json_response object_body) |}.

Definition world_object_body : World :=
  OpenLigaProvider_init default_config env_object_body.

Definition no_detail : exn -> string := fun _ => "".

(** The registry entry of GetTeam in the scenario where bl1 is down. *)
Definition get_team_entry : Operation :=
  {| validate := _validate_get_team;
     execute := _execute_get_team plain_repr default_config env_bl1_down;
     normalize := _normalize_get_team |}.

(** [delay = self._calculate_backoff_delay(attempt)] followed by
    [await asyncio.sleep(delay)], as the retry loop does between attempts. *)
Definition backoff_and_sleep (config : ProviderConfig) (env : Env)
    (attempt : Z) : M unit :=
  delay <- _calculate_backoff_delay config env attempt ;;
  asyncio_sleep delay.

(** A 200 response whose body is nothing but white space. *)
Definition blank_response : Response :=
  {| status_code := 200; content_type := Some "application/json";
     text := " "; body_json := None; is_error := false |}.

Definition env_blank_body : Env :=
  {| clock := fun k => inject_Z (Z.of_nat k);
     rand := fun _ => 1 # 2;
     upstream := fun _ _ _ => Returns blank_response |}.

(** A server that answers 429 once and then serves bl2's matches. *)
Definition env_429_then_ok : Env :=
  {| clock := fun k => inject_Z (Z.of_nat k);
     rand := fun _ => 1 # 2;
     upstream := fun _ _ k =>
       match k with
       | O => Returns (error_response 429)
       | S _ => Returns (json_response bl2_matches)
       end |}.







(** A configuration with more retries than the backoff can serve. *)
Definition config_many_retries : ProviderConfig :=
  {| RATE_LIMIT_RPS := 1 # 4; RATE_LIMIT_BURST := 5; MAX_RETRIES := 2000;
     BACKOFF_BASE_SECONDS := 1; BACKOFF_MAX_SECONDS := 30;
     JITTER_ENABLED := true;
     OPENLIGA_BASE_URL := "https://api.openligadb.de" |}.

(* ================================================================= *)
(** ** Properties of the decision mapper *)

Lemma validate_field_spec (field : string) (payload : pydict) :
  (if negb (dict_contains field payload)
      || negb (truthy (dict_get field JNull payload))
   then true else false) = absent_or_falsy field payload.
Proof.
  unfold dict_contains, dict_get, absent_or_falsy.
  destruct (dict_lookup field payload) as [v|]; simpl; [|reflexivity].
  destruct (truthy v); reflexivity.
Qed.

Lemma empty_is_falsy (v : json) : is_empty v = true -> truthy v = false.
Proof.
  destruct v as [| b | z | x | s | l | d]; simpl; try discriminate.
  - reflexivity.
  - intros ->. reflexivity.
  - destruct l; [reflexivity | discriminate].
  - destruct d; [reflexivity | discriminate].
Qed.

Lemma falsy_string_is_empty (s : string) :
  truthy (JStr s) = false <-> s = "".
Proof.
  simpl. rewrite negb_false_iff. apply String.eqb_eq.
Qed.

(** C8 (as amended).  [_validate_list_leagues] accepts every payload.  Each
    of the other three validators rejects a payload exactly when its field
    ([leagueId], [teamId], [matchId]) is absent or has a false truth value
    (None, False, zero, or an empty string, list or map), and then returns
    the details [{missing_field: <field>, reason: "<field> is required"}];
    otherwise it returns [(True, None)].  A payload whose field is absent or
    literally empty is always rejected, and for string values "false" and
    "empty" coincide. *)
Theorem validate_rejects_absent_or_falsy (payload : pydict) :
  _validate_list_leagues payload = (true, None) /\
  _validate_get_league_matches payload =
    (if absent_or_falsy "leagueId" payload then missing "leagueId"
     else (true, None)) /\
  _validate_get_team payload =
    (if absent_or_falsy "teamId" payload then missing "teamId"
     else (true, None)) /\
  _validate_get_match payload =
    (if absent_or_falsy "matchId" payload then missing "matchId"
     else (true, None)) /\
  (forall field,
     absent_or_empty field payload = true ->
     absent_or_falsy field payload = true) /\
  (forall field s,
     dict_lookup field payload = Some (JStr s) ->
     absent_or_falsy field payload = absent_or_empty field payload) /\
  snd (missing "leagueId")
    = Some [("missing_field", JStr "leagueId");
            ("reason", JStr "leagueId is required")].
Proof.
  split; [reflexivity|].
  unfold _validate_get_league_matches, _validate_get_team, _validate_get_match.
  repeat split.
  - rewrite <- validate_field_spec.
    destruct (negb _ || negb _); reflexivity.
  - rewrite <- validate_field_spec.
    destruct (negb _ || negb _); reflexivity.
  - rewrite <- validate_field_spec.
    destruct (negb _ || negb _); reflexivity.
  - intros field. unfold absent_or_empty, absent_or_falsy.
    destruct (dict_lookup field payload) as [v|]; [|reflexivity].
    intros H. rewrite (empty_is_falsy v H). reflexivity.
  - intros field s H. unfold absent_or_empty, absent_or_falsy.
    rewrite H. simpl. apply negb_involutive.
Qed.

(** C8 as stated fails: [{"leagueId": 0}] carries a [leagueId] that is
    neither absent nor empty, and [_validate_get_league_matches] rejects
    it. *)
Lemma validate_rejects_a_present_nonempty_field :
  ~ (fst (_validate_get_league_matches payload_zero_league) = false <->
     absent_or_empty "leagueId" payload_zero_league = true).
Proof.
  intros [H _].
  specialize (H eq_refl). discriminate H.
Qed.

(** C9.  Each normalizer is a total function onto its fixed shape:
    [{leagues, count}] and [{matches, count}] always hold a list and its
    length, [{team}] and [{match}] always hold a map; the list or map is the
    input when the input is one, and empty (with count 0) otherwise. *)
Theorem normalize_total_fixed_shape (data : json) :
  _normalize_list_leagues data =
    [("leagues", JList (list_or_empty data));
     ("count", JInt (Z.of_nat (length (list_or_empty data))))] /\
  _normalize_get_league_matches data =
    [("matches", JList (list_or_empty data));
     ("count", JInt (Z.of_nat (length (list_or_empty data))))] /\
  _normalize_get_team data = [("team", JDict (dict_or_empty data))] /\
  _normalize_get_match data = [("match", JDict (dict_or_empty data))] /\
  (is_list data = true -> JList (list_or_empty data) = data) /\
  (is_list data = false -> list_or_empty data = []) /\
  (is_dict data = true -> JDict (dict_or_empty data) = data) /\
  (is_dict data = false -> dict_or_empty data = []).
Proof.
  unfold _normalize_list_leagues, _normalize_get_league_matches,
    _normalize_get_team, _normalize_get_match.
  destruct data; simpl; repeat split; intros; try reflexivity;
    discriminate.
Qed.

(* ================================================================= *)
(** ** Properties of the token bucket *)

Local Open Scope Q_scope.

Lemma py_min_Qmin (a b : Q) : py_min a b = Qmin a b.
Proof.
  unfold py_min, Qltb, Qmin, GenericMinMax.gmin.
  destruct (Qle_bool a b) eqn:E; simpl.
  - apply Qle_bool_iff in E. unfold Qle, Qcompare in *.
    destruct (Z.compare_spec (Qnum a * QDen b) (Qnum b * QDen a));
      try reflexivity; lia.
  - assert (H : ~ a <= b) by (rewrite <- Qle_bool_iff; congruence).
    unfold Qle, Qcompare in *.
    destruct (Z.compare_spec (Qnum a * QDen b) (Qnum b * QDen a));
      try reflexivity; lia.
Qed.

(** [acquire], run: the three ways through it. *)
Lemma acquire_run (env : Env) (w : World) :
  let b := rate_limiter w in
  let now := clock env (time_reads w) in
  let t := refill_level env w in
  acquire env w =
    if Qle_bool 1 t then
      (Ok tt,
       {| rate_limiter := {| rate := rate b; burst := burst b;
                             tokens := t - 1; last_update := now |};
          time_reads := S (time_reads w); rand_draws := rand_draws w;
          requests := requests w; slept := slept w;
          observed := (t - 1) :: t :: observed w |})
    else if Qeq_bool (rate b) 0 then
      (Raise ZeroDivisionError,
       {| rate_limiter := {| rate := rate b; burst := burst b;
                             tokens := t; last_update := now |};
          time_reads := S (time_reads w); rand_draws := rand_draws w;
          requests := requests w; slept := slept w;
          observed := t :: observed w |})
    else
      (Ok tt,
       {| rate_limiter := {| rate := rate b; burst := burst b;
                             tokens := 0;
                             last_update := clock env (S (time_reads w)) |};
          time_reads := S (S (time_reads w)); rand_draws := rand_draws w;
          requests := requests w;
          slept := ((1 - t) / rate b) :: slept w;
          observed := 0 :: t :: observed w |}).
Proof.
  cbv zeta. unfold refill_level. rewrite <- py_min_Qmin.
  unfold acquire, bind, time_time, get_bucket, set_tokens, set_last_update,
    with_bucket, py_div, asyncio_sleep, raise, ret; simpl.
  destruct (Qle_bool 1 _); [reflexivity|].
  destruct (Qeq_bool (rate (rate_limiter w)) 0); reflexivity.
Qed.

(** C3.  On a bucket with a non-zero rate, [acquire] returns normally after
    this transition.  [tokens] is first set to
    [min(capacity, tokens + elapsed * refillRate)] (the refill level), with
    [elapsed] measured from [last_update] to the clock reading taken on
    entry.  If that level is at least 1, one token is taken, [last_update]
    is the entry reading and nothing is slept.  Otherwise the caller sleeps
    [(1 - level) / refillRate] once, [tokens] is then 0 whatever was earned
    meanwhile, and [last_update] is the clock reading taken on waking. *)
Theorem acquire_transition (env : Env) (w : World) :
  ~ rate (rate_limiter w) == 0 ->
  let b := rate_limiter w in
  let level := refill_level env w in
  exists w',
    acquire env w = (Ok tt, w') /\
    rate (rate_limiter w') = rate b /\
    burst (rate_limiter w') = burst b /\
    observed w' = tokens (rate_limiter w') :: level :: observed w /\
    (1 <= level ->
       tokens (rate_limiter w') = level - 1 /\
       last_update (rate_limiter w') = clock env (time_reads w) /\
       time_reads w' = S (time_reads w) /\
       slept w' = slept w) /\
    (level < 1 ->
       slept w' = ((1 - level) / rate b) :: slept w /\
       tokens (rate_limiter w') = 0 /\
       last_update (rate_limiter w') = clock env (S (time_reads w)) /\
       time_reads w' = S (S (time_reads w))).
Proof.
  intros Hrate b level. subst b level.
  rewrite acquire_run.
  generalize (refill_level env w). intros level.
  destruct (Qle_bool 1 level) eqn:E.
  - apply Qle_bool_iff in E.
    eexists; split; [reflexivity|]; simpl.
    repeat split; intros; repeat split; try reflexivity; exfalso; lra.
  - assert (Hlt : level < 1).
    { apply Qnot_le_lt. rewrite <- Qle_bool_iff. congruence. }
    destruct (Qeq_bool (rate (rate_limiter w)) 0) eqn:R.
    + apply Qeq_bool_iff in R. contradiction.
    + eexists; split; [reflexivity|]; simpl.
      repeat split; intros; repeat split; try reflexivity; exfalso; lra.
Qed.

Lemma refill_level_within (env : Env) (w : World) :
  bucket_inv env w -> within (burst (rate_limiter w)) (refill_level env w).
Proof.
  unfold bucket_inv, within, refill_level.
  intros (Hr & Hb & [Ht0 Ht1] & Hclk & _).
  destruct (rate_limiter w) as [r c t u]; simpl in *.
  assert (Hel : 0 <= (clock env (time_reads w) - u) * r).
  { apply Qmult_le_0_compat; lra. }
  destruct (Q.min_spec c (t + (clock env (time_reads w) - u) * r))
    as [[Hlt ->] | [Hle ->]]; lra.
Qed.

Lemma acquire_preserves_inv (env : Env) (w : World) :
  monotone_clock env -> bucket_inv env w ->
  bucket_inv env (snd (acquire env w)).
Proof.
  intros Hmono Hinv.
  pose proof (refill_level_within env w Hinv) as [Hl0 Hl1].
  destruct Hinv as (Hr & Hb & _ & _ & Hobs).
  rewrite acquire_run.
  destruct (Qle_bool 1 (refill_level env w)) eqn:E;
    [apply Qle_bool_iff in E
    | destruct (Qeq_bool (rate (rate_limiter w)) 0)];
    unfold bucket_inv, within; simpl;
    (repeat split; try assumption; try lra;
     [ apply Hmono; lia
     | repeat (apply Forall_cons; [unfold within; lra|]); exact Hobs ]).
Qed.

Lemma acquire_many_inv (env : Env) (n : nat) (w : World) :
  monotone_clock env -> bucket_inv env w ->
  bucket_inv env (acquire_many env n w).
Proof.
  intros Hmono. revert w.
  induction n as [|n IH]; intros w Hinv; simpl; [exact Hinv|].
  apply IH. apply acquire_preserves_inv; assumption.
Qed.

Lemma acquire_many_burst (env : Env) (n : nat) (w : World) :
  burst (rate_limiter (acquire_many env n w)) = burst (rate_limiter w).
Proof.
  revert w. induction n as [|n IH]; intros w; simpl; [reflexivity|].
  rewrite IH, acquire_run.
  destruct (Qle_bool 1 _); [|destruct (Qeq_bool _ 0)]; reflexivity.
Qed.

(** C2.  A bucket built with a non-negative rate and capacity, used under a
    clock that never runs backwards: after any number of [acquire] calls,
    every value that was ever stored in [tokens] (by the constructor, by a
    refill, by taking a token, by the reset after a wait) lies between 0
    and the capacity, and so does the current value. *)
Theorem tokens_within_capacity (env : Env) (rate0 burst0 : Q) (n : nat) :
  0 <= rate0 -> 0 <= burst0 -> monotone_clock env ->
  let w := acquire_many env n (new_world env rate0 burst0) in
  Forall (within burst0) (observed w) /\
  within burst0 (tokens (rate_limiter w)).
Proof.
  intros Hr Hb Hmono w.
  assert (Hinv : bucket_inv env (new_world env rate0 burst0)).
  { unfold bucket_inv, within; simpl. repeat split; try lra.
    - apply Hmono; lia.
    - constructor; [lra | constructor]. }
  pose proof (acquire_many_inv env n _ Hmono Hinv) as (_ & _ & Ht & _ & Hobs).
  fold w in Ht, Hobs.
  unfold w in Ht, Hobs at 1. rewrite acquire_many_burst in Ht, Hobs.
  simpl in Ht, Hobs. split; assumption.
Qed.

(* ================================================================= *)
(** ** Properties of the backoff delay *)

Lemma backoff_base_nonneg (config : ProviderConfig) (attempt : Z) :
  0 <= BACKOFF_BASE_SECONDS config ->
  0 <= BACKOFF_BASE_SECONDS config * 2 ^ attempt.
Proof.
  intros Hb. apply Qmult_le_0_compat; [exact Hb|].
  apply Qpower_0_le. lra.
Qed.

Lemma backoff_base_monotone (config : ProviderConfig) (a a' : Z) :
  0 <= BACKOFF_BASE_SECONDS config -> (a <= a')%Z ->
  BACKOFF_BASE_SECONDS config * 2 ^ a <= BACKOFF_BASE_SECONDS config * 2 ^ a'.
Proof.
  intros Hb Ha.
  rewrite !(Qmult_comm (BACKOFF_BASE_SECONDS config)).
  apply Qmult_le_compat_r; [|exact Hb].
  apply Qpower_le_compat_l; [exact Ha | lra].
Qed.

Lemma backoff_overflow (config : ProviderConfig) (env : Env)
    (attempt : Z) (w : World) :
  (1024 <= attempt)%Z ->
  _calculate_backoff_delay config env attempt w = (Raise OverflowError, w).
Proof.
  intros Ha. unfold _calculate_backoff_delay, float_times_pow2, bind.
  apply Z.leb_le in Ha. rewrite Ha. reflexivity.
Qed.

Lemma backoff_below_overflow (config : ProviderConfig) (env : Env)
    (attempt : Z) (w : World) :
  (attempt < 1024)%Z ->
  _calculate_backoff_delay config env attempt w =
  let base_delay := BACKOFF_BASE_SECONDS config * 2 ^ attempt in
  if JITTER_ENABLED config then
    (Ok (py_min (base_delay
                 + (0 + (base_delay * (1 # 10) - 0) * rand env (rand_draws w)))
                (BACKOFF_MAX_SECONDS config)),
     snd (random_uniform env 0 (base_delay * (1 # 10)) w))
  else (Ok (py_min base_delay (BACKOFF_MAX_SECONDS config)), w).
Proof.
  intros Ha. unfold _calculate_backoff_delay, float_times_pow2, bind.
  apply Z.leb_gt in Ha. rewrite Ha. cbv zeta. unfold ret at 1.
  destruct (JITTER_ENABLED config); reflexivity.
Qed.

Lemma backoff_without_jitter (config : ProviderConfig) (env : Env)
    (attempt : Z) (w : World) :
  (attempt < 1024)%Z ->
  JITTER_ENABLED config = false ->
  _calculate_backoff_delay config env attempt w =
    (Ok (Qmin (BACKOFF_BASE_SECONDS config * 2 ^ attempt)
              (BACKOFF_MAX_SECONDS config)), w).
Proof.
  intros Ha Hj. rewrite (backoff_below_overflow _ _ _ _ Ha). cbv zeta.
  rewrite Hj, py_min_Qmin. reflexivity.
Qed.

(** C7.  With a non-negative base and a random draw in [0, 1]: for an
    [attempt] below 1024 the delay is [min(base * 2^attempt + jitter,
    maxDelay)], where [jitter] lies in [[0, base * 2^attempt * 0.1]] when
    jitter is enabled and is 0 (no draw is made) otherwise; the delay never
    exceeds [maxDelay], and with jitter disabled it is non-decreasing in
    [attempt] below 1024.  From attempt 1024 on no delay is returned: the
    product [base * (2 ** attempt)] raises [OverflowError], before any draw
    is made. *)
Theorem backoff_delay_spec (config : ProviderConfig) (env : Env)
    (attempt : Z) (w : World) :
  0 <= BACKOFF_BASE_SECONDS config ->
  0 <= rand env (rand_draws w) <= 1 ->
  let base_delay := BACKOFF_BASE_SECONDS config * 2 ^ attempt in
  ((attempt < 1024)%Z ->
   exists jitter delay w',
     _calculate_backoff_delay config env attempt w = (Ok delay, w') /\
     delay == Qmin (base_delay + jitter) (BACKOFF_MAX_SECONDS config) /\
     (JITTER_ENABLED config = true ->
        0 <= jitter /\ jitter <= base_delay * (1 # 10)) /\
     (JITTER_ENABLED config = false -> jitter = 0 /\ w' = w) /\
     delay <= BACKOFF_MAX_SECONDS config /\
     (JITTER_ENABLED config = false ->
        forall attempt' w2, (attempt <= attempt' < 1024)%Z ->
          delay <= delay_of (_calculate_backoff_delay config env attempt' w2)))
  /\
  ((1024 <= attempt)%Z ->
   _calculate_backoff_delay config env attempt w = (Raise OverflowError, w)).
Proof.
  intros Hb [Hr0 Hr1] base_delay.
  split; [|apply backoff_overflow].
  intros Ha.
  pose proof (backoff_base_nonneg config attempt Hb) as Hbd.
  fold base_delay in Hbd.
  destruct (JITTER_ENABLED config) eqn:Hj.
  - exists (0 + (base_delay * (1 # 10) - 0) * rand env (rand_draws w)).
    rewrite (backoff_below_overflow _ _ _ _ Ha). cbv zeta.
    rewrite Hj. fold base_delay. rewrite py_min_Qmin.
    do 2 eexists. split; [reflexivity|].
    split; [reflexivity|].
    split; [|split; [discriminate | split; [apply Q.le_min_r | discriminate]]].
    intros _. generalize dependent (rand env (rand_draws w)). intros r Hr0 Hr1.
    split; nra.
  - exists 0. rewrite (backoff_without_jitter _ _ _ _ Ha Hj). fold base_delay.
    do 2 eexists. split; [reflexivity|].
    split; [apply Q.min_compat; [lra | reflexivity]|].
    split; [discriminate|].
    split; [intros _; split; reflexivity|].
    split; [apply Q.le_min_r|].
    intros _ attempt' w2 [Hle Hlt].
    rewrite (backoff_without_jitter _ _ _ _ Hlt Hj). unfold delay_of; simpl.
    apply Q.min_le_compat_r.
    apply backoff_base_monotone; assumption.
Qed.

(* ================================================================= *)
(** ** Properties of the retry loop *)

Section RetryLoop.

Variable config : ProviderConfig.
Variable env : Env.
Variables method url : string.

(** [acquire] makes no request and leaves the rate alone; it fails only on
    a rate of zero. *)
Lemma acquire_effect (w : World) :
  exists w1,
    requests w1 = requests w /\
    rate (rate_limiter w1) = rate (rate_limiter w) /\
    (acquire env w = (Ok tt, w1) \/
     acquire env w = (Raise ZeroDivisionError, w1) /\
     rate (rate_limiter w) == 0).
Proof.
  rewrite acquire_run.
  destruct (Qle_bool 1 (refill_level env w)).
  - eexists. split; [|split; [|left; reflexivity]]; reflexivity.
  - destruct (Qeq_bool (rate (rate_limiter w)) 0) eqn:R.
    + eexists. split; [|split; [|right; split; [reflexivity|]]];
        [reflexivity | reflexivity | apply Qeq_bool_iff; exact R].
    + eexists. split; [|split; [|left; reflexivity]]; reflexivity.
Qed.

(** Below attempt 1024, computing the delay and sleeping succeeds, and
    touches neither the request counter nor the bucket. *)
Lemma backoff_then_sleep (attempt : Z) (w : World) :
  (attempt < 1024)%Z ->
  exists w2,
    requests w2 = requests w /\
    rate_limiter w2 = rate_limiter w /\
    forall (A : Type) (k : M A),
      (delay <- _calculate_backoff_delay config env attempt ;;
       asyncio_sleep delay ;;; k) w = k w2.
Proof.
  intros Ha.
  destruct (JITTER_ENABLED config) eqn:Hj; eexists;
    (split; [|split; [|intros A k; unfold bind;
                       rewrite (backoff_below_overflow _ _ _ _ Ha);
                       cbv zeta; rewrite Hj; reflexivity]]); reflexivity.
Qed.

(** From attempt 1024 on, computing the delay raises, and the loop ends
    there. *)
Lemma backoff_overflow_then (attempt : Z) (w : World) (A : Type) (k : M A) :
  (1024 <= attempt)%Z ->
  (delay <- _calculate_backoff_delay config env attempt ;;
   asyncio_sleep delay ;;; k) w = (Raise OverflowError, w).
Proof.
  intros Ha. unfold bind. rewrite (backoff_overflow _ _ _ _ Ha). reflexivity.
Qed.

(** One turn of the loop. *)
Lemma retry_loop_step (attempt : Z) (rest : list Z)
    (last_exception : option exn) (response : option Response)
    (w : World) :
  retry_loop config env method url (attempt :: rest) last_exception
    response w =
  match acquire env w with
  | (Raise e, w1) => (Raise e, w1)
  | (Ok _, w1) =>
      match upstream env method url (requests w1) with
      | Returns r =>
          if html_200 r then
            (Raise (ValueError
                      (HtmlInsteadOfJson (status_code r)
                         (lower (match content_type r with
                                 | Some v => v | None => "" end)))),
             request_made w1)
          else if retryable_status r then
            if (attempt <? MAX_RETRIES config)%Z then
              (delay <- _calculate_backoff_delay config env attempt ;;
               asyncio_sleep delay ;;;
               retry_loop config env method url rest last_exception
                 (Some r)) (request_made w1)
            else (Ok r, request_made w1)
          else (Ok r, request_made w1)
      | Raises e =>
          if is_network_fault e then
            if (attempt <? MAX_RETRIES config)%Z then
              (delay <- _calculate_backoff_delay config env attempt ;;
               asyncio_sleep delay ;;;
               retry_loop config env method url rest (Some e) response)
                (request_made w1)
            else (Raise e, request_made w1)
          else (Raise e, request_made w1)
      end
  end.
Proof.
  cbn [retry_loop]. unfold bind at 1.
  destruct (acquire env w) as [[[] | e] w1]; [|reflexivity].
  unfold client_request, retryable_status.
  destruct (upstream env method url (requests w1)) as [r | e].
  - destruct (html_200 r); [reflexivity|].
    destruct ((status_code r <? 500)%Z && negb (status_code r =? 429)%Z);
      [reflexivity|]. simpl negb. cbv iota.
    destruct (attempt <? MAX_RETRIES config)%Z; reflexivity.
  - destruct (is_network_fault e); [|reflexivity].
    destruct (attempt <? MAX_RETRIES config)%Z; reflexivity.
Qed.

Lemma retry_loop_spec (len a : nat) :
  forall (last_exception : option exn) (response : option Response)
         (w : World),
    MAX_RETRIES config = Z.of_nat (a + len) ->
    let run := retry_loop config env method url
                 (map Z.of_nat (seq a (S len))) last_exception response w in
    let out k := upstream env method url (requests w + k) in
    exists n,
      (n <= len)%nat /\
      (forall k, (k < n)%nat -> retryable (out k) /\ (a + k < 1024)%nat) /\
      (fst run = Raise ZeroDivisionError /\
       requests (snd run) = (requests w + n)%nat /\
       rate (rate_limiter w) == 0
       \/
       requests (snd run) = (requests w + S n)%nat /\
       settles (out n) (fst run) (n = len)
       \/
       fst run = Raise OverflowError /\
       requests (snd run) = (requests w + S n)%nat /\
       retryable (out n) /\ (n < len)%nat /\ (1024 <= a + n)%nat).
Proof.
  revert a.
  induction len as [|len IH]; intros a last_exception response w Hmax;
    cbv zeta; cbn [seq map];
    rewrite retry_loop_step;
    (destruct (acquire_effect w) as (w1 & Hreq & Hrate & [-> | [-> Hzero]]);
     [|exists 0%nat; split; [lia|]; split; [intros k Hk; lia|];
       left; simpl; rewrite Hreq; repeat split; [lia | exact Hzero]]);
    rewrite Hreq.
  - (* the last attempt *)
    exists 0%nat. split; [lia|]. split; [intros k Hk; lia|].
    right; left. rewrite Nat.add_0_r.
    assert (Hlt : (Z.of_nat a <? MAX_RETRIES config)%Z = false).
    { apply Z.ltb_ge. lia. }
    rewrite Hlt.
    destruct (upstream env method url (requests w)) as [r | e];
      cbn [settles].
    + destruct (html_200 r) eqn:Hh; [simpl; split; [lia | auto]|].
      destruct (retryable_status r) eqn:Hs; simpl;
        (split; [lia | repeat split; congruence]).
    + destruct (is_network_fault e) eqn:Hf; simpl;
        (split; [lia | repeat split; congruence]).
  - (* an attempt with others to follow *)
    assert (Hlt : (Z.of_nat a <? MAX_RETRIES config)%Z = true).
    { apply Z.ltb_lt. lia. }
    assert (Hmax' : MAX_RETRIES config = Z.of_nat (S a + len)) by lia.
    rewrite Hlt.
    assert (Hstop : forall res : Result Response,
              settles (upstream env method url (requests w)) res False ->
              exists n : nat,
                (n <= S len)%nat /\
                (forall k, (k < n)%nat ->
                   retryable (upstream env method url (requests w + k)) /\
                   (a + k < 1024)%nat) /\
                (fst (res, request_made w1) = Raise ZeroDivisionError /\
                 requests (snd (res, request_made w1)) = (requests w + n)%nat /\
                 rate (rate_limiter w) == 0
                 \/
                 requests (snd (res, request_made w1)) = (requests w + S n)%nat /\
                 settles (upstream env method url (requests w + n))
                   (fst (res, request_made w1)) (n = S len)
                 \/
                 fst (res, request_made w1) = Raise OverflowError /\
                 requests (snd (res, request_made w1)) = (requests w + S n)%nat /\
                 retryable (upstream env method url (requests w + n)) /\
                 (n < S len)%nat /\ (1024 <= a + n)%nat)).
    { intros res Hres. exists 0%nat. split; [lia|].
      split; [intros k Hk'; lia|]. right; left. rewrite Nat.add_0_r. simpl.
      split; [lia|].
      destruct (upstream env method url (requests w)); destruct res;
        simpl in *; intuition. }
    assert (Hgo : forall le resp,
              retryable (upstream env method url (requests w)) ->
              let run :=
                (delay <- _calculate_backoff_delay config env (Z.of_nat a) ;;
                 asyncio_sleep delay ;;;
                 retry_loop config env method url
                   (map Z.of_nat (seq (S a) (S len))) le resp)
                  (request_made w1) in
              exists n : nat,
                (n <= S len)%nat /\
                (forall k, (k < n)%nat ->
                   retryable (upstream env method url (requests w + k)) /\
                   (a + k < 1024)%nat) /\
                (fst run = Raise ZeroDivisionError /\
                 requests (snd run) = (requests w + n)%nat /\
                 rate (rate_limiter w) == 0
                 \/
                 requests (snd run) = (requests w + S n)%nat /\
                 settles (upstream env method url (requests w + n))
                   (fst run) (n = S len)
                 \/
                 fst run = Raise OverflowError /\
                 requests (snd run) = (requests w + S n)%nat /\
                 retryable (upstream env method url (requests w + n)) /\
                 (n < S len)%nat /\ (1024 <= a + n)%nat)).
    { intros le resp Hfirst run. subst run.
      destruct (Z.lt_ge_cases (Z.of_nat a) 1024) as [Hsmall | Hbig].
      - destruct (backoff_then_sleep (Z.of_nat a) (request_made w1) Hsmall)
          as (w2 & Hreq2 & Hrl2 & Hk).
        assert (Hreq2' : requests w2 = S (requests w)).
        { rewrite Hreq2. simpl. rewrite Hreq. reflexivity. }
        assert (Hrate2 : rate (rate_limiter w2) = rate (rate_limiter w)).
        { rewrite Hrl2. simpl. exact Hrate. }
        rewrite Hk.
        destruct (IH (S a) le resp w2 Hmax') as (n & Hn & Hretry & Hend).
        rewrite Hreq2', Hrate2 in Hend.
        exists (S n). split; [lia|]. split.
        + intros [|k] Hklt; [rewrite Nat.add_0_r; split; [exact Hfirst | lia]|].
          replace (requests w + S k)%nat with (requests w2 + k)%nat by lia.
          destruct (Hretry k) as [Hr Hb]; [lia|]. split; [exact Hr | lia].
        + replace (requests w + S n)%nat with (S (requests w) + n)%nat by lia.
          replace (requests w + S (S n))%nat
            with (S (requests w) + S n)%nat by lia.
          destruct Hend as [(Hres & Hcnt & Hzero)
                           | [(Hcnt & Hset)
                             | (Hres & Hcnt & Hr & Hlen & Hbig)]];
            [left; auto | | right; right; repeat split; auto; lia].
          right; left. split; [exact Hcnt|].
          destruct (upstream env method url (S (requests w) + n));
            destruct (fst (retry_loop _ _ _ _ _ le resp w2));
            simpl in *; intuition lia.
      - rewrite (backoff_overflow_then _ _ _ _ Hbig).
        exists 0%nat. split; [lia|]. split; [intros k Hk'; lia|].
        right; right. rewrite Nat.add_0_r. simpl.
        repeat split; [lia | exact Hfirst | lia | lia]. }
    destruct (upstream env method url (requests w)) as [r | e] eqn:Hout.
    + destruct (html_200 r) eqn:Hh;
        [apply Hstop; try rewrite Hout; simpl; auto|].
      destruct (retryable_status r) eqn:Hs.
      * apply Hgo. try rewrite Hout. simpl. auto.
      * apply Hstop. try rewrite Hout. simpl. repeat split; congruence.
    + destruct (is_network_fault e) eqn:Hf.
      * apply Hgo. try rewrite Hout. exact Hf.
      * apply Hstop. try rewrite Hout. simpl. split; congruence.
Qed.

End RetryLoop.

Section RequestWithRetry.

Variable config : ProviderConfig.
Variable env : Env.
Variables method url : string.

Lemma request_with_retry_spec (w : World) :
  (0 <= MAX_RETRIES config)%Z ->
  let run := _request_with_retry config env method url w in
  let out k := upstream env method url (requests w + k) in
  exists n,
    (Z.of_nat n <= MAX_RETRIES config)%Z /\
    (forall k, (k < n)%nat -> retryable (out k)) /\
    (fst run = Raise ZeroDivisionError /\
     requests (snd run) = (requests w + n)%nat /\
     rate (rate_limiter w) == 0
     \/
     requests (snd run) = (requests w + S n)%nat /\
     settles (out n) (fst run) (Z.of_nat n = MAX_RETRIES config) /\
     (n <= 1024)%nat
     \/
     fst run = Raise OverflowError /\
     requests (snd run) = (requests w + S n)%nat /\
     retryable (out n) /\ n = 1024%nat /\ (1024 < MAX_RETRIES config)%Z).
Proof.
  intros Hmax run out. subst run out.
  unfold _request_with_retry, range.
  replace (Z.to_nat (MAX_RETRIES config + 1))
    with (S (Z.to_nat (MAX_RETRIES config))) by lia.
  destruct (retry_loop_spec config env method url
              (Z.to_nat (MAX_RETRIES config)) 0 None None w)
    as (n & Hn & Hretry & Hend); [simpl; lia|].
  assert (Hsmall : (n <= 1024)%nat).
  { destruct n as [|n]; [lia|]. destruct (Hretry n) as [_ H]; lia. }
  exists n. split; [lia|]. split; [intros k Hk; apply Hretry; exact Hk|].
  destruct Hend as [Hfail | [[Hcnt Hset] | (Hres & Hcnt & Hr & Hlen & Hbig)]];
    [left; exact Hfail | | right; right; repeat split; auto; lia].
  right; left. split; [exact Hcnt|]. split; [|exact Hsmall].
  destruct (upstream env method url (requests w + n));
    destruct (fst (retry_loop _ _ _ _ _ _ _ w)); simpl in *;
    intuition lia.
Qed.

Lemma request_with_retry_none (w : World) :
  (MAX_RETRIES config < 0)%Z ->
  _request_with_retry config env method url w = (Raise UnboundLocalError, w).
Proof.
  intros Hneg. unfold _request_with_retry, range.
  replace (Z.to_nat (MAX_RETRIES config + 1)) with 0%nat by lia.
  reflexivity.
Qed.

(** C6.  [_request_with_retry] is a total function of the world it starts
    in: whatever the upstream does, it ends, and between its start and its
    end at most [MAX_RETRIES + 1] HTTP requests are made. *)
Theorem retry_attempts_bounded (w : World) :
  (-1 <= MAX_RETRIES config)%Z ->
  exists res w',
    _request_with_retry config env method url w = (res, w') /\
    (requests w <= requests w')%nat /\
    (Z.of_nat (requests w' - requests w) <= MAX_RETRIES config + 1)%Z.
Proof.
  intros Hmax.
  destruct (Z.lt_ge_cases (MAX_RETRIES config) 0) as [Hneg | Hpos].
  - rewrite (request_with_retry_none w Hneg).
    do 2 eexists. split; [reflexivity|]. split; lia.
  - destruct (request_with_retry_spec w Hpos)
      as (n & Hn & _ & [(_ & Hcnt & _) | [(Hcnt & _) | (_ & Hcnt & _)]]);
      destruct (_request_with_retry config env method url w) as [res w'];
      simpl in Hcnt; exists res, w'; (split; [reflexivity|]); split; lia.
Qed.

(** C5.  If any request made by a call of [_request_with_retry] is
    answered with status 200 and a content type containing "text/html",
    the call raises the "API returned HTML instead of JSON" [ValueError]
    and that request is the last one it makes, whatever the attempt number
    and however many retries were left. *)
Theorem html_200_fails_at_once (w : World) (k : nat) (r : Response) :
  let run := _request_with_retry config env method url w in
  issued w (snd run) k ->
  upstream env method url k = Returns r ->
  html_200 r = true ->
  fst run = Raise (ValueError
                     (HtmlInsteadOfJson (status_code r)
                        (lower (match content_type r with
                                | Some v => v | None => "" end)))) /\
  requests (snd run) = S k.
Proof.
  intros run [Hlo Hhi] Hout Hhtml. subst run.
  destruct (Z.lt_ge_cases (MAX_RETRIES config) 0) as [Hneg | Hpos].
  { rewrite (request_with_retry_none w Hneg) in Hhi. simpl in Hhi. lia. }
  destruct (request_with_retry_spec w Hpos) as (n & Hn & Hretry & Hend).
  assert (Hnot : forall j, (j < n)%nat -> (requests w + j)%nat <> k).
  { intros j Hj Heq. specialize (Hretry j Hj). cbv beta in Hretry.
    rewrite Heq, Hout in Hretry. simpl in Hretry.
    destruct Hretry as [Hh _]. congruence. }
  destruct Hend as [(_ & Hcnt & _)
                   | [(Hcnt & Hset & _) | (_ & Hcnt & Hr & _)]].
  - exfalso. apply (Hnot (k - requests w)%nat); lia.
  - assert (Hk : (requests w + n)%nat = k).
    { destruct (Nat.eq_dec (requests w + n) k) as [E | E]; [exact E|].
      exfalso. apply (Hnot (k - requests w)%nat); lia. }
    cbv beta in Hset. rewrite Hk, Hout in Hset.
    destruct (fst (_request_with_retry config env method url w));
      simpl in Hset.
    + destruct Hset as (_ & Hh & _). congruence.
    + destruct Hset as [_ ->]. split; [reflexivity | lia].
  - (* the call ended on a retryable outcome: not on an HTML answer *)
    exfalso.
    assert (Hk : (requests w + n)%nat = k).
    { destruct (Nat.eq_dec (requests w + n) k) as [E | E]; [exact E|].
      exfalso. apply (Hnot (k - requests w)%nat); lia. }
    cbv beta in Hr. rewrite Hk, Hout in Hr. simpl in Hr.
    destruct Hr as [Hh _]. congruence.
Qed.


End RequestWithRetry.


(* ================================================================= *)
(** ** Properties of the team and match lookup *)

Section Lookup.

Variable str_repr : string -> string.
Variable config : ProviderConfig.
Variable env : Env.

Lemma team_loop_yield (team_id : json) (items : list json) :
  returned (team_loop str_repr team_id items) =
  scan_yield str_repr "teamId" team_id (examined_teams items).
Proof.
  unfold scan_yield.
  induction items as [|item rest IH]; [reflexivity|].
  cbn [team_loop examined_teams flat_map].
  fold (examined_teams rest).
  destruct item as [| | | | | |m];
    try (cbn [team_matches py_get app find ends_scan is_dict negb orb];
         reflexivity).
  cbn [teams_of app find]. unfold team_matches, py_get, ends_scan, same_id.
  destruct (dict_get "team1" (JDict []) m) as [| | | | | |t1];
    try reflexivity.
  cbn [is_dict negb orb dict_or_empty].
  destruct (String.eqb (py_str str_repr (dict_get "teamId" JNull t1)) _);
    [reflexivity|].
  destruct (dict_get "team2" (JDict []) m) as [| | | | | |t2];
    try reflexivity.
  cbn [is_dict negb orb dict_or_empty].
  destruct (String.eqb (py_str str_repr (dict_get "teamId" JNull t2)) _);
    [reflexivity|].
  exact IH.
Qed.

Lemma scan_for_team_yield (team_id data : json) :
  returned (scan_for_team str_repr team_id data) =
  team_yield str_repr team_id data.
Proof.
  unfold scan_for_team, team_yield.
  destruct (py_iter data) as [items|]; [apply team_loop_yield | reflexivity].
Qed.

Lemma match_loop_yield (match_id : json) (items : list json) :
  match match_loop str_repr match_id items with
  | Ok m => Some m
  | Raise _ => None
  end = scan_yield str_repr "matchID" match_id items.
Proof.
  unfold scan_yield.
  induction items as [|item rest IH]; [reflexivity|].
  cbn [match_loop find].
  destruct item as [| | | | | |m]; try reflexivity.
  unfold py_get, ends_scan, same_id. cbn [is_dict negb orb dict_or_empty].
  destruct (String.eqb (py_str str_repr (dict_get "matchID" JNull m)) _);
    [reflexivity | exact IH].
Qed.

(** Among maps only, a scan ends at the first hit. *)
Lemma scan_yield_maps (key : string) (id : json) (objs : list json) :
  forallb is_dict objs = true ->
  scan_yield str_repr key id objs = find (same_id str_repr key id) objs.
Proof.
  unfold scan_yield.
  induction objs as [|obj rest IH]; [reflexivity|].
  cbn [forallb find]. intros H. apply andb_prop in H. destruct H as [Hd Hrest].
  unfold ends_scan. rewrite Hd. cbn [negb orb].
  destruct (same_id str_repr key id obj);
    [rewrite Hd; reflexivity | exact (IH Hrest)].
Qed.

Lemma match_objects_are_maps (items : list json) :
  forallb match_object items = true ->
  forallb is_dict items = true /\
  examined_teams items = flat_map teams_of items /\
  forallb is_dict (flat_map teams_of items) = true.
Proof.
  induction items as [|item rest IH]; [repeat split|].
  cbn [forallb]. intros H. apply andb_prop in H. destruct H as [Hm Hrest].
  destruct (IH Hrest) as (H1 & H2 & H3).
  destruct item as [| | | | | |m]; try discriminate.
  cbn [match_object] in Hm. apply andb_prop in Hm. destruct Hm as [Ht1 Ht2].
  cbn [is_dict andb examined_teams flat_map teams_of app forallb].
  fold (examined_teams rest). rewrite H1, H2, H3, Ht1, Ht2.
  repeat split.
Qed.

Lemma team_yield_match_list (team_id data : json) :
  match_list data = true ->
  team_yield str_repr team_id data = first_team str_repr team_id data.
Proof.
  destruct data as [| | | | |items|]; try discriminate.
  cbn [match_list]. intros H.
  destruct (match_objects_are_maps items H) as (_ & Hex & Hmaps).
  unfold team_yield, first_team, scanned_teams.
  cbn [py_iter list_or_empty]. rewrite Hex.
  apply scan_yield_maps. exact Hmaps.
Qed.

Lemma match_yield_match_list (match_id data : json) :
  match_list data = true ->
  match_yield str_repr match_id data = first_match str_repr match_id data.
Proof.
  destruct data as [| | | | |items|]; try discriminate.
  cbn [match_list]. intros H.
  destruct (match_objects_are_maps items H) as (Hmaps & _).
  unfold match_yield, first_match. cbn [py_iter list_or_empty].
  apply scan_yield_maps. exact Hmaps.
Qed.

Lemma scan_candidates_only_not_found (hit : json -> option json)
    (not_found : exn) (candidates : list string) :
  forall w e w',
    scan_candidates config env hit not_found candidates w = (Raise e, w') ->
    e = not_found.
Proof.
  induction candidates as [|l rest IH]; intros w e w'; simpl.
  - unfold raise. intros H. inversion H. reflexivity.
  - destruct (get_league_matches config env l w) as [[data | e0] w1];
      [destruct (hit data); [discriminate|]|]; apply IH.
Qed.

Lemma league_loop_scan (team_id : json) (leagues : list string) :
  forall w,
    league_loop str_repr config env team_id leagues w =
    scan_candidates config env (team_yield str_repr team_id)
      (ValueError (TeamNotFound team_id)) leagues w.
Proof.
  induction leagues as [|l rest IH]; intros w; [reflexivity|].
  cbn [league_loop scan_candidates].
  destruct (get_league_matches config env l w) as [[data | e] w1];
    [|apply IH].
  rewrite <- scan_for_team_yield.
  destruct (scan_for_team str_repr team_id data) as [[team|] | e];
    cbn [returned]; [reflexivity | apply IH | apply IH].
Qed.

(** C1 (as amended).  [get_team] is the scan of the fixed candidate list
    [bl1, bl2, pl, sa, ll], and [get_match] the same scan of the single
    league [bl1].  The scan fetches each candidate's matches in order; a
    league whose fetch fails is skipped and the scan goes on from the world
    the failed fetch left; a league that yields a hit ends the scan with
    that hit; and the only failure is NotFound, raised when no candidate
    yielded a hit.  What a league yields is the first object, in scan order,
    that goes by the identifier, unless the scan breaks on an object that
    is not a map before it; for a list of match objects that is simply the
    first team (sides in the order team1, team2) or match going by it. *)
Theorem lookup_scans_candidates :
  (forall team_id w,
     get_team str_repr config env team_id w =
     scan_candidates config env (team_yield str_repr team_id)
       (ValueError (TeamNotFound team_id)) common_leagues w) /\
  (forall match_id w,
     get_match str_repr config env match_id w =
     scan_candidates config env (match_yield str_repr match_id)
       (ValueError (MatchNotFound match_id)) ["bl1"] w) /\
  (forall id data,
     match_list data = true ->
     team_yield str_repr id data = first_team str_repr id data /\
     match_yield str_repr id data = first_match str_repr id data) /\
  (forall hit not_found league rest w e w1,
     get_league_matches config env league w = (Raise e, w1) ->
     scan_candidates config env hit not_found (league :: rest) w =
     scan_candidates config env hit not_found rest w1) /\
  (forall hit not_found league rest w data w1 found,
     get_league_matches config env league w = (Ok data, w1) ->
     hit data = Some found ->
     scan_candidates config env hit not_found (league :: rest) w =
     (Ok found, w1)) /\
  (forall hit not_found candidates w e w',
     scan_candidates config env hit not_found candidates w = (Raise e, w') ->
     e = not_found).
Proof.
  split; [|split; [|split; [|split; [|split]]]].
  - intros team_id w. apply league_loop_scan.
  - intros match_id w. unfold get_match. cbn [scan_candidates].
    destruct (get_league_matches config env "bl1" w) as [[data | e] w1];
      [|reflexivity].
    unfold match_yield.
    destruct (py_iter data) as [items|]; [|reflexivity].
    rewrite <- match_loop_yield.
    destruct (match_loop str_repr match_id items); reflexivity.
  - intros id data Hshape. split;
      [apply team_yield_match_list | apply match_yield_match_list];
      exact Hshape.
  - intros hit not_found league rest w e w1 E.
    cbn [scan_candidates]. rewrite E. reflexivity.
  - intros hit not_found league rest w data w1 found E Hhit.
    cbn [scan_candidates]. rewrite E, Hhit. reflexivity.
  - intros hit not_found candidates.
    apply scan_candidates_only_not_found.
Qed.

End Lookup.

(** C1 as stated fails for [get_match].  With bl1 unreachable and match 7
    played in bl2, the scan of the provider's candidate leagues skips bl1
    and returns the match found in bl2, whereas [get_match] has no next
    league to go on to and fails with NotFound. *)
Lemma get_match_does_not_go_on :
  ~ (fst (get_match plain_repr default_config env_bl1_down (JStr "7")
            world_bl1_down)
     = fst (scan_candidates default_config env_bl1_down
              (first_match plain_repr (JStr "7"))
              (ValueError (MatchNotFound (JStr "7"))) common_leagues
              world_bl1_down)).
Proof.
  vm_compute. discriminate.
Qed.

Lemma find_after_misses {A} (f : A -> bool) (before after : list A) (x : A) :
  Forall (fun y => f y = false) before -> f x = true ->
  find f (before ++ x :: after) = Some x.
Proof.
  induction 1 as [|y before Hy _ IH]; intros Hx; simpl.
  - rewrite Hx. reflexivity.
  - rewrite Hy. apply IH. exact Hx.
Qed.






(* ================================================================= *)
(** ** The properties at work *)

(** The clock of the scenarios ticks once per reading. *)
Lemma clock_ticks_monotone : monotone_clock env_bl1_down.
Proof.
  intros i j H. simpl. unfold Qle. simpl. lia.
Defined.

(** Eight calls on a bucket of rate 1/4 and capacity 5. *)
Lemma tokens_within_capacity_witness :
  Forall (within 5)
    (observed (acquire_many env_bl1_down 8 (new_world env_bl1_down (1 # 4) 5))).
Proof.
  apply (tokens_within_capacity env_bl1_down (1 # 4) 5 8).
  - unfold Qle; simpl; lia.
  - unfold Qle; simpl; lia.
  - exact clock_ticks_monotone.
Defined.

(** The first call on a full bucket of capacity 5 leaves 4 tokens. *)
Lemma acquire_transition_witness :
  exists w', acquire env_bl1_down world_bl1_down = (Ok tt, w') /\
             tokens (rate_limiter w') == 4.
Proof.
  destruct (acquire_transition env_bl1_down world_bl1_down)
    as (w' & Hrun & _ & _ & _ & Htake & _).
  - intros H. vm_compute in H. discriminate H.
  - exists w'. split; [exact Hrun|].
    destruct Htake as (Ht & _).
    + vm_compute. discriminate.
    + rewrite Ht. vm_compute. reflexivity.
Defined.

(** The delay before the third attempt, default configuration; no delay
    comes back for attempt 1024. *)
Lemma backoff_delay_spec_witness :
  (exists delay w',
     _calculate_backoff_delay default_config env_bl1_down 2 world_bl1_down
       = (Ok delay, w') /\
     delay <= 30) /\
  _calculate_backoff_delay default_config env_bl1_down 1024 world_bl1_down
    = (Raise OverflowError, world_bl1_down).
Proof.
  split.
  - destruct (backoff_delay_spec default_config env_bl1_down 2 world_bl1_down)
      as [Hdelay _].
    + vm_compute. discriminate.
    + split; vm_compute; discriminate.
    + destruct Hdelay as (jitter & delay & w' & Hrun & _ & _ & _ & Hmax & _);
        [lia|].
      exists delay, w'. split; [exact Hrun | exact Hmax].
  - destruct (backoff_delay_spec default_config env_bl1_down 1024
                world_bl1_down) as [_ Hraise].
    + vm_compute. discriminate.
    + split; vm_compute; discriminate.
    + apply Hraise. lia.
Defined.

(** A league that answers 500 throughout costs at most four requests. *)
Lemma retry_attempts_bounded_witness :
  exists res w',
    _request_with_retry default_config env_bl1_down "GET" "/getmatchdata/pl"
      world_bl1_down = (res, w') /\
    (requests world_bl1_down <= requests w')%nat /\
    (Z.of_nat (requests w' - requests world_bl1_down) <= 3 + 1)%Z.
Proof.
  apply (retry_attempts_bounded default_config env_bl1_down
           "GET" "/getmatchdata/pl" world_bl1_down).
  simpl. lia.
Defined.

(** 500, then an HTML page with status 200: the second request is the last. *)
Lemma html_200_fails_at_once_witness :
  fst (_request_with_retry default_config env_html_after_500
         "GET" "/getavailableleagues" world_html_after_500)
  = Raise (ValueError (HtmlInsteadOfJson 200 "text/html; charset=utf-8")).
Proof.
  apply (html_200_fails_at_once default_config env_html_after_500
           "GET" "/getavailableleagues" world_html_after_500 1 html_response).
  - vm_compute. split; repeat constructor.
  - reflexivity.
  - reflexivity.
Defined.


(** Scenario seeds of the specification, run on the model. *)

Example team_found_past_failed_league :
  fst (get_team plain_repr default_config env_bl1_down (JStr "X")
         world_bl1_down) = Ok team_x.
Proof. vm_compute. reflexivity. Qed.

Example numeric_team_id_matches_its_string :
  fst (get_team plain_repr default_config env_bl1_down (JStr "40")
         world_bl1_down) = Ok (JDict [("teamId", JInt 40)]).
Proof. vm_compute. reflexivity. Qed.

Example team_none_is_the_unnamed_one :
  fst (get_team plain_repr default_config env_bl1_down (JStr "None")
         world_bl1_down) = Ok team_unnamed.
Proof. vm_compute. reflexivity. Qed.

Example match_lookup_only_tries_bl1 :
  fst (get_match plain_repr default_config env_bl1_down (JStr "7")
         world_bl1_down) = Raise (ValueError (MatchNotFound (JStr "7"))) /\
  fst (scan_candidates default_config env_bl1_down
         (first_match plain_repr (JStr "7"))
         (ValueError (MatchNotFound (JStr "7"))) common_leagues
         world_bl1_down) = Ok match_7.
Proof. split; vm_compute; reflexivity. Qed.

Example all_500_makes_four_requests :
  let run := _request_with_retry default_config env_bl1_down
               "GET" "/getmatchdata/pl" world_bl1_down in
  fst run = Ok (error_response 500) /\ requests (snd run) = 4%nat /\
  length (slept (snd run)) = 3%nat.
Proof. vm_compute. repeat split. Qed.

Example third_immediate_acquire_waits :
  let env := {| clock := fun _ => 0; rand := fun _ => 0;
                upstream := upstream env_bl1_down |} in
  slept (acquire_many env 2 (new_world env 10 2)) = [] /\
  Forall2 Qeq (slept (acquire_many env 3 (new_world env 10 2))) [1 # 10].
Proof. vm_compute. split; [reflexivity | repeat constructor]. Qed.

(* ================================================================= *)
(** ** Further properties of the token bucket *)

Lemma acquire_takes_a_token (env : Env) (w : World) :
  monotone_clock env -> bucket_inv env w ->
  1 <= tokens (rate_limiter w) ->
  exists w1,
    acquire env w = (Ok tt, w1) /\ slept w1 = slept w /\
    bucket_inv env w1 /\
    tokens (rate_limiter w) - 1 <= tokens (rate_limiter w1).
Proof.
  intros Hmono Hinv Hone.
  pose proof (acquire_preserves_inv env w Hmono Hinv) as Hinv1.
  assert (Hlevel : tokens (rate_limiter w) <= refill_level env w).
  { destruct Hinv as (Hr & _ & [_ Hcap] & Hclk & _). unfold refill_level.
    destruct (rate_limiter w) as [r c t u]; simpl in *.
    assert (0 <= (clock env (time_reads w) - u) * r)
      by (apply Qmult_le_0_compat; lra).
    apply Q.min_glb; lra. }
  rewrite acquire_run in *.
  destruct (Qle_bool 1 (refill_level env w)) eqn:E.
  - eexists. split; [reflexivity|].
    split; [reflexivity|]. split; [exact Hinv1|]. simpl. lra.
  - exfalso. assert (1 <= refill_level env w) by lra.
    apply Qle_bool_iff in H. congruence.
Qed.

(** X1.  Burst admission: on a bucket holding at least [n] tokens, [n] calls
    of [acquire] in a row all return normally and none of them sleeps. *)
Theorem burst_is_admitted_without_waiting (env : Env) (n : nat) :
  forall w,
    monotone_clock env -> bucket_inv env w ->
    inject_Z (Z.of_nat n) <= tokens (rate_limiter w) ->
    fst (acquire_each env n w) = repeat (Ok tt) n /\
    slept (snd (acquire_each env n w)) = slept w.
Proof.
  induction n as [|n IH]; intros w Hmono Hinv Hn; [split; reflexivity|].
  assert (Hz : inject_Z (Z.of_nat (S n)) == inject_Z (Z.of_nat n) + 1).
  { rewrite Nat2Z.inj_succ. unfold Z.succ. rewrite inject_Z_plus. reflexivity. }
  assert (Hpos : 0 <= inject_Z (Z.of_nat n)).
  { change 0 with (inject_Z 0). rewrite <- Zle_Qle. lia. }
  destruct (acquire_takes_a_token env w Hmono Hinv) as (w1 & Hrun & Hs & Hinv1 & Ht);
    [lra|].
  cbn [acquire_each]. rewrite Hrun.
  destruct (IH w1 Hmono Hinv1) as [Hres Hslept]; [lra|].
  destruct (acquire_each env n w1) as [rs w2]. simpl in *.
  split; [rewrite Hres; reflexivity | congruence].
Qed.

(** X2.  On a bucket with a positive rate, a call of [acquire] returns
    normally and sleeps at most once, for more than nothing and at most one
    refill period [1 / rate]. *)
Theorem acquire_waits_at_most_one_period (env : Env) (w : World) :
  bucket_inv env w -> 0 < rate (rate_limiter w) ->
  exists w1,
    acquire env w = (Ok tt, w1) /\
    (slept w1 = slept w \/
     exists d, slept w1 = d :: slept w /\
               0 < d /\ d <= 1 / rate (rate_limiter w)).
Proof.
  intros Hinv Hrate.
  pose proof (refill_level_within env w Hinv) as [Hl0 _].
  rewrite acquire_run.
  generalize dependent (refill_level env w). intros level Hl0.
  destruct (Qle_bool 1 level) eqn:E.
  - eexists. split; [reflexivity|]. left. reflexivity.
  - assert (Hlt : level < 1).
    { apply Qnot_le_lt. rewrite <- Qle_bool_iff. congruence. }
    destruct (Qeq_bool (rate (rate_limiter w)) 0) eqn:R.
    { apply Qeq_bool_iff in R. lra. }
    eexists. split; [reflexivity|]. right. simpl.
    eexists. split; [reflexivity|].
    pose proof (Qinv_lt_0_compat _ Hrate) as Hinv_pos.
    unfold Qdiv. split.
    + apply Qmult_lt_0_compat; [lra | exact Hinv_pos].
    + apply Qmult_le_compat_r; lra.
Qed.

Lemma zero_rate_run (env : Env) (n : nat) :
  forall w k,
    rate (rate_limiter w) == 0 ->
    tokens (rate_limiter w) == inject_Z (Z.of_nat k) ->
    tokens (rate_limiter w) <= burst (rate_limiter w) ->
    fst (acquire_each env n w) =
      repeat (Ok tt) (Nat.min n k) ++ repeat (Raise ZeroDivisionError) (n - k) /\
    slept (snd (acquire_each env n w)) = slept w.
Proof.
  induction n as [|n IH]; intros w k Hrate Htok Hcap; [split; reflexivity|].
  assert (Hlevel : refill_level env w == inject_Z (Z.of_nat k)).
  { unfold refill_level. rewrite Hrate, Qmult_0_r, Qplus_0_r.
    rewrite Q.min_r; assumption. }
  cbn [acquire_each]. rewrite acquire_run.
  destruct (Qle_bool 1 (refill_level env w)) eqn:E.
  - apply Qle_bool_iff in E. rewrite Hlevel in E.
    change 1 with (inject_Z 1) in E. rewrite <- Zle_Qle in E.
    destruct k as [|k]; [lia|].
    match goal with |- context [acquire_each env n ?w1] =>
      destruct (IH w1 k) as [Hres Hs]; simpl;
        [exact Hrate
        | rewrite Hlevel, Nat2Z.inj_succ; unfold Z.succ;
          rewrite inject_Z_plus; change (inject_Z 1) with 1; ring
        | rewrite Hlevel, <- Htok; lra
        | destruct (acquire_each env n w1) as [rs w2] ]
    end.
    simpl in *. split; [rewrite Hres; reflexivity | exact Hs].
  - assert (Hk : k = 0%nat).
    { destruct k as [|k]; [reflexivity|]. exfalso.
      assert (1 <= refill_level env w).
      { rewrite Hlevel. change 1 with (inject_Z 1). rewrite <- Zle_Qle. lia. }
      apply Qle_bool_iff in H. congruence. }
    subst k.
    assert (R : Qeq_bool (rate (rate_limiter w)) 0 = true)
      by (apply Qeq_bool_iff; exact Hrate).
    rewrite R.
    match goal with |- context [acquire_each env n ?w1] =>
      destruct (IH w1 0%nat) as [Hres Hs]; simpl;
        [exact Hrate | exact Hlevel | rewrite Hlevel, <- Htok; exact Hcap
        | destruct (acquire_each env n w1) as [rs w2] ]
    end.
    simpl in *. rewrite Nat.min_0_r, Nat.sub_0_r in Hres. simpl in Hres.
    split; [rewrite Hres; reflexivity | exact Hs].
Qed.

(** X3.  A bucket built with rate 0 and capacity [c] never refills: of any
    [n] calls of [acquire] the first [c] return normally, every later one
    raises [ZeroDivisionError], and none sleeps. *)
Theorem zero_rate_admits_only_the_burst (env : Env) (c n : nat) :
  fst (acquire_each env n (new_world env 0 (inject_Z (Z.of_nat c)))) =
    repeat (Ok tt) (Nat.min n c) ++ repeat (Raise ZeroDivisionError) (n - c) /\
  slept (snd (acquire_each env n (new_world env 0 (inject_Z (Z.of_nat c)))))
    = [].
Proof.
  apply (zero_rate_run env n (new_world env 0 (inject_Z (Z.of_nat c))) c);
    simpl; try reflexivity. apply Qle_refl.
Qed.

(* ================================================================= *)
(** ** Further properties of the retry loop and of the fetches *)

Section Fetch.

Variable config : ProviderConfig.
Variable env : Env.

Lemma acquire_counters (w : World) :
  requests (snd (acquire env w)) = requests w /\
  rand_draws (snd (acquire env w)) = rand_draws w.
Proof.
  rewrite acquire_run.
  destruct (Qle_bool 1 _); [|destruct (Qeq_bool _ 0)]; split; reflexivity.
Qed.

Lemma backoff_then_sleep_draws (attempt : Z) (w : World) :
  (forall (A : Type) (k : M A),
     (delay <- _calculate_backoff_delay config env attempt ;;
      asyncio_sleep delay ;;; k) w = (Raise OverflowError, w))
  \/
  exists w2,
    requests w2 = requests w /\
    (rand_draws w <= rand_draws w2 <= S (rand_draws w))%nat /\
    (JITTER_ENABLED config = false -> rand_draws w2 = rand_draws w) /\
    forall (A : Type) (k : M A),
      (delay <- _calculate_backoff_delay config env attempt ;;
       asyncio_sleep delay ;;; k) w = k w2.
Proof.
  destruct (Z.lt_ge_cases attempt 1024) as [Hsmall | Hbig].
  - right.
    destruct (JITTER_ENABLED config) eqn:Hj; eexists;
      (split; [|split; [|split; [|intros A k; unfold bind;
                                  rewrite (backoff_below_overflow _ _ _ _ Hsmall);
                                  cbv zeta; rewrite Hj; reflexivity]]]);
      simpl; try reflexivity; try lia; intros; try discriminate; reflexivity.
  - left. intros A k. apply backoff_overflow_then. exact Hbig.
Qed.

(** What a run of the loop does to the counters of the world. *)
Lemma retry_loop_counters (method url : string) (attempts : list Z) :
  forall last_exception response w,
    let w' := snd (retry_loop config env method url attempts
                     last_exception response w) in
    (requests w <= requests w' <= requests w + length attempts)%nat /\
    (rand_draws w <= rand_draws w')%nat /\
    (rand_draws w' - rand_draws w <= requests w' - requests w)%nat /\
    (JITTER_ENABLED config = false -> rand_draws w' = rand_draws w).
Proof.
  induction attempts as [|attempt rest IH]; intros last_exception response w.
  - cbn [retry_loop].
    destruct last_exception; [|destruct response]; simpl;
      repeat split; lia.
  - cbv zeta. rewrite retry_loop_step.
    destruct (acquire_counters w) as [Hreq Hdraw].
    destruct (acquire env w) as [[[] | e] w1]; simpl in Hreq, Hdraw;
      [|simpl; rewrite Hreq, Hdraw; repeat split; lia].
    assert (Hstop : forall res : Result Response,
              let w' := snd (res, request_made w1) in
              (requests w <= requests w' <= requests w + S (length rest))%nat /\
              (rand_draws w <= rand_draws w')%nat /\
              (rand_draws w' - rand_draws w <= requests w' - requests w)%nat /\
              (JITTER_ENABLED config = false -> rand_draws w' = rand_draws w)).
    { intros res. simpl. rewrite Hreq, Hdraw. repeat split; lia. }
    assert (Hgo : forall le resp,
              let w' :=
                snd ((delay <- _calculate_backoff_delay config env attempt ;;
                      asyncio_sleep delay ;;;
                      retry_loop config env method url rest le resp)
                       (request_made w1)) in
              (requests w <= requests w' <= requests w + S (length rest))%nat /\
              (rand_draws w <= rand_draws w')%nat /\
              (rand_draws w' - rand_draws w <= requests w' - requests w)%nat /\
              (JITTER_ENABLED config = false -> rand_draws w' = rand_draws w)).
    { intros le resp.
      destruct (backoff_then_sleep_draws attempt (request_made w1))
        as [Hover | (w2 & Hreq2 & Hdraw2 & Hoff & Hk)].
      - rewrite Hover. apply Hstop.
      - simpl in Hreq2, Hdraw2, Hoff. rewrite Hk.
        destruct (IH le resp w2) as (H1 & H2 & H3 & H4).
        cbv zeta. repeat split; try lia.
        intros Hj. rewrite (H4 Hj), (Hoff Hj). exact Hdraw. }
    cbn [length].
    destruct (upstream env method url (requests w1)) as [r | e].
    + destruct (html_200 r); [apply Hstop|].
      destruct (retryable_status r); [|apply Hstop].
      destruct (attempt <? MAX_RETRIES config)%Z; [|apply Hstop].
      apply Hgo.
    + destruct (is_network_fault e); [|apply Hstop].
      destruct (attempt <? MAX_RETRIES config)%Z; [|apply Hstop].
      apply Hgo.
Qed.

Lemma range_length (n : Z) : length (range n) = Z.to_nat n.
Proof. unfold range. rewrite length_map, length_seq. reflexivity. Qed.

(** X4.  The random source is consulted at most once per request of a call
    of [_request_with_retry], and never when jitter is disabled. *)
Theorem jitter_draws_follow_requests (method url : string) (w : World) :
  let w' := snd (_request_with_retry config env method url w) in
  (rand_draws w <= rand_draws w')%nat /\
  (rand_draws w' - rand_draws w <= requests w' - requests w)%nat /\
  (JITTER_ENABLED config = false -> rand_draws w' = rand_draws w).
Proof.
  unfold _request_with_retry.
  destruct (retry_loop_counters method url (range (MAX_RETRIES config + 1))
              None None w) as (_ & H); exact H.
Qed.

(** X5.  With a non-zero rate and [MAX_RETRIES >= 0], a first answer that
    is neither retryable (429, 5xx) nor an HTML page with status 200 is
    returned after that single request: the world afterwards is the world
    after one [acquire] and one request, with no backoff computed or
    slept. *)
Theorem first_answer_is_returned_at_once (method url : string) (w : World)
    (r : Response) :
  ~ rate (rate_limiter w) == 0 ->
  (0 <= MAX_RETRIES config)%Z ->
  upstream env method url (requests w) = Returns r ->
  html_200 r = false ->
  retryable_status r = false ->
  _request_with_retry config env method url w =
    (Ok r, request_made (snd (acquire env w))).
Proof.
  intros Hrate Hmax Hout Hh Hs.
  unfold _request_with_retry, range.
  replace (Z.to_nat (MAX_RETRIES config + 1))
    with (S (Z.to_nat (MAX_RETRIES config))) by lia.
  cbn [seq map]. rewrite retry_loop_step.
  destruct (acquire_effect env w) as (w1 & Hreq & _ & [Hrun | [_ Hzero]]);
    [|contradiction].
  rewrite Hrun. cbn [snd]. rewrite Hreq, Hout, Hh, Hs. reflexivity.
Qed.

(** The request and the parsing that [list_leagues] and
    [get_league_matches] consist of. *)
Lemma fetch_served (url : string) (w w' : World) (v : json) :
  (response <- _request_with_retry config env "GET" url ;;
   parse_body response) w = (Ok v, w') ->
  exists k r,
    issued w w' k /\ upstream env "GET" url k = Returns r /\
    html_200 r = false /\ is_error r = false /\
    is_blank (text r) = false /\ body_json r = Some v.
Proof.
  unfold bind.
  destruct (_request_with_retry config env "GET" url w) as [[r | e] w1] eqn:E;
    [|discriminate].
  unfold parse_body, bind, raise_for_status, raise, ret.
  destruct (is_error r) eqn:He; [discriminate|].
  destruct (is_blank (text r)) eqn:Hb; [discriminate|].
  destruct (body_json r) as [v'|] eqn:Hj; [|discriminate].
  intros H. inversion H; subst v' w'. clear H.
  destruct (Z.lt_ge_cases (MAX_RETRIES config) 0) as [Hneg | Hpos].
  { rewrite (request_with_retry_none config env "GET" url w Hneg) in E.
    discriminate. }
  destruct (request_with_retry_spec config env "GET" url w Hpos)
    as (n & _ & _ & Hend).
  rewrite E in Hend. cbn [fst snd] in Hend.
  destruct Hend as [(Hfail & _) | [(Hcnt & Hset & _) | (Hfail & _)]];
    [discriminate | | discriminate].
  exists (requests w + n)%nat. cbv beta in Hset.
  destruct (upstream env "GET" url (requests w + n)) as [r' | e'];
    simpl in Hset; [|contradiction].
  destruct Hset as (-> & Hh & _).
  exists r'. unfold issued. repeat split; try assumption; lia.
Qed.

(** X6.  Whatever [list_leagues] or [get_league_matches] returns is the
    parsed body of a response that one of the call's own requests to the
    endpoint received, and that response passed every check: it was not an
    HTML page with status 200, [raise_for_status] did not raise on it, and
    its text was not blank. *)
Theorem fetched_data_was_served (w w' : World) (v : json) :
  (list_leagues config env w = (Ok v, w') ->
   exists k r,
     issued w w' k /\
     upstream env "GET" "/getavailableleagues" k = Returns r /\
     html_200 r = false /\ is_error r = false /\
     is_blank (text r) = false /\ body_json r = Some v) /\
  (forall league_id,
     get_league_matches config env league_id w = (Ok v, w') ->
     exists k r,
       issued w w' k /\
       upstream env "GET" ("/getmatchdata/" ++ league_id)%string k
         = Returns r /\
       html_200 r = false /\ is_error r = false /\
       is_blank (text r) = false /\ body_json r = Some v).
Proof.
  split; [|intros league_id]; apply fetch_served.
Qed.

Lemma all_retryable_runs_out (method url : string) (w : World) :
  ~ rate (rate_limiter w) == 0 ->
  (0 <= MAX_RETRIES config <= 1024)%Z ->
  (forall k, (Z.of_nat k <= MAX_RETRIES config)%Z ->
     retryable (upstream env method url (requests w + k))) ->
  let run := _request_with_retry config env method url w in
  requests (snd run)
    = (requests w + Z.to_nat (MAX_RETRIES config) + 1)%nat /\
  match upstream env method url
          (requests w + Z.to_nat (MAX_RETRIES config)) with
  | Returns r => fst run = Ok r
  | Raises e => fst run = Raise e
  end.
Proof.
  intros Hrate [Hmax Hcap] Hall run.
  destruct (request_with_retry_spec config env method url w Hmax)
    as (n & Hn & _ & Hend).
  fold run in Hend.
  destruct Hend as [(_ & _ & Hzero) | [(Hcnt & Hset & _) | (_ & _ & _ & _ & H)]];
    [contradiction | | lia].
  cbv beta in Hset. specialize (Hall n Hn).
  assert (Hlast : Z.of_nat n = MAX_RETRIES config).
  { destruct (upstream env method url (requests w + n)) as [r | e];
      destruct (fst run) as [r0 | e0]; simpl in Hset, Hall.
    - apply Hset. apply Hall.
    - destruct Hset as [Hh _]. destruct Hall as [Hh' _]. congruence.
    - contradiction.
    - apply Hset. exact Hall. }
  replace (Z.to_nat (MAX_RETRIES config)) with n by lia.
  split; [lia|].
  destruct (upstream env method url (requests w + n)) as [r | e];
    destruct (fst run) as [r0 | e0]; simpl in Hset, Hall.
  - destruct Hset as [-> _]. reflexivity.
  - destruct Hset as [Hh _]. destruct Hall as [Hh' _]. congruence.
  - contradiction.
  - destruct Hset as [-> _]. reflexivity.
Qed.

(** X7.  An upstream that keeps failing, seen from [list_leagues] (non-zero
    rate, [0 <= MAX_RETRIES <= 1024], so that every backoff delay can be
    computed).  If every attempt is answered with status
    429 or 5xx, [list_leagues] makes all [MAX_RETRIES + 1] requests and then
    reports the last response through [raise_for_status]: it raises
    [HTTPStatusError] with that status when the status check raises.  If
    every attempt times out or loses the connection, it makes all
    [MAX_RETRIES + 1] requests and raises the last of those faults. *)
Theorem persistent_failure_surfaces_after_all_attempts (w : World) :
  ~ rate (rate_limiter w) == 0 ->
  (0 <= MAX_RETRIES config <= 1024)%Z ->
  let out k := upstream env "GET" "/getavailableleagues" (requests w + k) in
  let last := Z.to_nat (MAX_RETRIES config) in
  let run := list_leagues config env w in
  ((forall k, (Z.of_nat k <= MAX_RETRIES config)%Z ->
      exists r, out k = Returns r /\ retryable_status r = true /\
                is_error r = true) ->
   exists r, out last = Returns r /\
             fst run = Raise (HTTPStatusError (status_code r)) /\
             requests (snd run) = (requests w + last + 1)%nat) /\
  ((forall k, (Z.of_nat k <= MAX_RETRIES config)%Z ->
      exists e, out k = Raises e /\ is_network_fault e = true) ->
   exists e, out last = Raises e /\
             fst run = Raise e /\
             requests (snd run) = (requests w + last + 1)%nat).
Proof.
  intros Hrate Hmax out last run. subst out last run.
  unfold list_leagues, bind. split; intros Hall.
  - destruct (all_retryable_runs_out "GET" "/getavailableleagues" w Hrate Hmax)
      as [Hcnt Hres].
    { intros k Hk. destruct (Hall k Hk) as (r & -> & Hs & _). simpl.
      split; [|exact Hs]. unfold html_200. unfold retryable_status in Hs.
      destruct (status_code r =? 200)%Z eqn:E; [|apply andb_false_r].
      apply Z.eqb_eq in E. rewrite E in Hs. discriminate. }
    destruct (Hall (Z.to_nat (MAX_RETRIES config))) as (r & Hout & _ & He);
      [lia|].
    rewrite Hout in Hres. exists r. split; [exact Hout|].
    destruct (_request_with_retry config env "GET" "/getavailableleagues" w)
      as [res w1]. simpl in Hres, Hcnt. subst res.
    unfold parse_body, bind, raise_for_status, raise. rewrite He. simpl.
    split; [reflexivity | exact Hcnt].
  - destruct (all_retryable_runs_out "GET" "/getavailableleagues" w Hrate Hmax)
      as [Hcnt Hres].
    { intros k Hk. destruct (Hall k Hk) as (e & -> & Hf). exact Hf. }
    destruct (Hall (Z.to_nat (MAX_RETRIES config))) as (e & Hout & _); [lia|].
    rewrite Hout in Hres. exists e. split; [exact Hout|].
    destruct (_request_with_retry config env "GET" "/getavailableleagues" w)
      as [res w1]. simpl in Hres, Hcnt. subst res.
    split; [reflexivity | exact Hcnt].
Qed.

(** X23.  More retries than the backoff can serve (non-zero rate,
    [MAX_RETRIES > 1024]).  When each of the first 1025 attempts is answered
    with a retryable response or ends in a network fault,
    [_request_with_retry] makes exactly 1025 requests and raises
    [OverflowError]: the delay after attempt 1024 cannot be computed, and the
    attempts that remain are not made. *)
Theorem backoff_overflow_ends_the_retries (method url : string) (w : World) :
  ~ rate (rate_limiter w) == 0 ->
  (1024 < MAX_RETRIES config)%Z ->
  (forall k, (k <= 1024)%nat ->
     retryable (upstream env method url (requests w + k))) ->
  let run := _request_with_retry config env method url w in
  fst run = Raise OverflowError /\
  requests (snd run) = (requests w + 1025)%nat.
Proof.
  intros Hrate Hmax Hall run.
  destruct (request_with_retry_spec config env method url w)
    as (n & Hn & _ & Hend); [lia|].
  fold run in Hend.
  destruct Hend as [(_ & _ & Hzero)
                   | [(Hcnt & Hset & Hsmall) | (Hres & Hcnt & _ & -> & _)]];
    [contradiction | exfalso | split; [exact Hres | rewrite Hcnt; lia]].
  cbv beta in Hset. specialize (Hall n Hsmall).
  destruct (upstream env method url (requests w + n)) as [r | e];
    destruct (fst run) as [r0 | e0]; simpl in Hset, Hall.
  - destruct Hset as (_ & _ & Hlast). destruct Hall as [_ Hs].
    specialize (Hlast Hs). lia.
  - destruct Hset as [Hh _]. destruct Hall as [Hh' _]. congruence.
  - contradiction.
  - destruct Hset as [_ Hlast]. specialize (Hlast Hall). lia.
Qed.

End Fetch.

(* ================================================================= *)
(** ** Further properties of the lookups *)

Section LookupCost.

Variable str_repr : string -> string.
Variable config : ProviderConfig.
Variable env : Env.

Lemma fetch_preserves (url : string) (w : World) :
  snd ((response <- _request_with_retry config env "GET" url ;;
        parse_body response) w)
  = snd (_request_with_retry config env "GET" url w).
Proof.
  unfold bind.
  destruct (_request_with_retry config env "GET" url w) as [[r | e] w1];
    [|reflexivity].
  unfold parse_body, bind, raise_for_status, raise, ret.
  destruct (is_error r); [reflexivity|].
  destruct (is_blank (text r)); [reflexivity|].
  destruct (body_json r); reflexivity.
Qed.

Lemma get_league_matches_requests (league_id : string) (w : World) :
  (requests w <= requests (snd (get_league_matches config env league_id w))
   <= requests w + Z.to_nat (MAX_RETRIES config + 1))%nat.
Proof.
  unfold get_league_matches. rewrite fetch_preserves.
  unfold _request_with_retry.
  destruct (retry_loop_counters config env "GET"
              ("/getmatchdata/" ++ league_id)%string
              (range (MAX_RETRIES config + 1)) None None w) as (H & _).
  rewrite range_length in H. exact H.
Qed.

Lemma league_loop_requests (team_id : json) (leagues : list string) :
  forall w,
    (requests w
     <= requests (snd (league_loop str_repr config env team_id leagues w))
     <= requests w
        + length leagues * Z.to_nat (MAX_RETRIES config + 1))%nat.
Proof.
  induction leagues as [|l rest IH]; intros w; [simpl; lia|].
  cbn [league_loop length].
  pose proof (get_league_matches_requests l w) as Hl.
  destruct (get_league_matches config env l w) as [[data | e] w1];
    cbn [snd] in Hl.
  - destruct (scan_for_team str_repr team_id data) as [[team|] | e];
      [simpl; lia | |]; specialize (IH w1); lia.
  - specialize (IH w1). lia.
Qed.

(** X8.  The cost of a call in upstream requests: at most [MAX_RETRIES + 1]
    for [list_leagues], [get_league_matches] and [get_match], and at most
    five times that for [get_team], whatever the upstream answers. *)
Theorem requests_per_call_are_bounded (w : World) :
  let budget := Z.to_nat (MAX_RETRIES config + 1) in
  (requests (snd (list_leagues config env w)) <= requests w + budget)%nat /\
  (forall league_id,
     requests (snd (get_league_matches config env league_id w))
     <= requests w + budget)%nat /\
  (forall match_id,
     requests (snd (get_match str_repr config env match_id w))
     <= requests w + budget)%nat /\
  (forall team_id,
     requests (snd (get_team str_repr config env team_id w))
     <= requests w + 5 * budget)%nat.
Proof.
  cbv zeta. split; [|split; [|split]].
  - unfold list_leagues. rewrite fetch_preserves. unfold _request_with_retry.
    destruct (retry_loop_counters config env "GET" "/getavailableleagues"
                (range (MAX_RETRIES config + 1)) None None w) as (H & _).
    rewrite range_length in H. lia.
  - intros league_id. pose proof (get_league_matches_requests league_id w). lia.
  - intros match_id. unfold get_match.
    pose proof (get_league_matches_requests "bl1" w) as H.
    destruct (get_league_matches config env "bl1" w) as [[data | e] w1];
      cbn [snd] in H; [|simpl; lia].
    destruct (py_iter data) as [items|]; [|simpl; lia].
    destruct (match_loop str_repr match_id items); simpl; lia.
  - intros team_id. unfold get_team.
    pose proof (league_loop_requests team_id common_leagues w) as H.
    simpl length in H. lia.
Qed.

(** X9.  With a negative [MAX_RETRIES] the retry loop has no turn: no
    request is made and the bucket is not touched.  [list_leagues] and
    [get_league_matches] then raise [UnboundLocalError], which [get_team]
    and [get_match] report as NotFound. *)
Theorem negative_max_retries_never_asks (w : World) :
  (MAX_RETRIES config < 0)%Z ->
  list_leagues config env w = (Raise UnboundLocalError, w) /\
  (forall league_id,
     get_league_matches config env league_id w
     = (Raise UnboundLocalError, w)) /\
  (forall team_id,
     get_team str_repr config env team_id w
     = (Raise (ValueError (TeamNotFound team_id)), w)) /\
  (forall match_id,
     get_match str_repr config env match_id w
     = (Raise (ValueError (MatchNotFound match_id)), w)).
Proof.
  intros Hneg.
  assert (Hfetch : forall league_id,
            get_league_matches config env league_id w
            = (Raise UnboundLocalError, w)).
  { intros league_id. unfold get_league_matches, bind.
    rewrite (request_with_retry_none config env _ _ w Hneg). reflexivity. }
  split; [|split; [exact Hfetch | split]].
  - unfold list_leagues, bind.
    rewrite (request_with_retry_none config env _ _ w Hneg). reflexivity.
  - intros team_id. unfold get_team, common_leagues. cbn [league_loop].
    rewrite !Hfetch. reflexivity.
  - intros match_id. unfold get_match. rewrite Hfetch. reflexivity.
Qed.

Lemma scan_candidates_found (hit : json -> option json) (not_found : exn)
    (candidates : list string) :
  forall w found w',
    scan_candidates config env hit not_found candidates w = (Ok found, w') ->
    exists data, hit data = Some found.
Proof.
  induction candidates as [|l rest IH]; intros w found w'; simpl.
  - unfold raise. discriminate.
  - destruct (get_league_matches config env l w) as [[data | e] w1];
      [|apply IH].
    destruct (hit data) as [x|] eqn:Hhit; [|apply IH].
    intros H. inversion H; subst. exists data. exact Hhit.
Qed.

Lemma scan_yield_hit (key : string) (id : json) (objs : list json)
    (found : json) :
  scan_yield str_repr key id objs = Some found ->
  is_dict found = true /\ same_id str_repr key id found = true.
Proof.
  unfold scan_yield.
  destruct (find (ends_scan str_repr key id) objs) as [obj|] eqn:Hfind;
    [|discriminate].
  apply find_some in Hfind. destruct Hfind as [_ Hends].
  destruct (is_dict obj) eqn:Hd; [|discriminate].
  intros H. inversion H; subst. split; [exact Hd|].
  unfold ends_scan in Hends. rewrite Hd in Hends. exact Hends.
Qed.

Lemma get_team_found (w w' : World) (id found : json) :
  get_team str_repr config env id w = (Ok found, w') ->
  is_dict found = true /\ same_id str_repr "teamId" id found = true.
Proof.
  intros Hrun. unfold get_team in Hrun. rewrite league_loop_scan in Hrun.
  destruct (scan_candidates_found _ _ _ _ _ _ Hrun) as [data Hhit].
  unfold team_yield in Hhit.
  destruct (py_iter data) as [items|]; [|discriminate].
  exact (scan_yield_hit _ _ _ _ Hhit).
Qed.

Lemma get_match_found (w w' : World) (id found : json) :
  get_match str_repr config env id w = (Ok found, w') ->
  is_dict found = true /\ same_id str_repr "matchID" id found = true.
Proof.
  intros Hrun. unfold get_match in Hrun.
  destruct (get_league_matches config env "bl1" w) as [[data | e] w1];
    [|discriminate].
  destruct (py_iter data) as [items|] eqn:Hiter; [|discriminate].
  pose proof (match_loop_yield str_repr id items) as Hy.
  destruct (match_loop str_repr id items) as [m | e]; [|discriminate].
  inversion Hrun; subst m w1.
  exact (scan_yield_hit _ _ _ _ (eq_sym Hy)).
Qed.

Lemma get_team_raises_not_found (w w' : World) (id : json) (e : exn) :
  get_team str_repr config env id w = (Raise e, w') ->
  e = ValueError (TeamNotFound id).
Proof.
  unfold get_team. rewrite league_loop_scan.
  apply scan_candidates_only_not_found.
Qed.

Lemma get_match_raises_not_found (w w' : World) (id : json) (e : exn) :
  get_match str_repr config env id w = (Raise e, w') ->
  e = ValueError (MatchNotFound id).
Proof.
  unfold get_match.
  destruct (get_league_matches config env "bl1" w) as [[data | e0] w1];
    [|intros H; inversion H; reflexivity].
  destruct (py_iter data) as [items|];
    [|intros H; inversion H; reflexivity].
  destruct (match_loop str_repr id items);
    intros H; inversion H; reflexivity.
Qed.

(** X10.  What a lookup returns is what was asked for: [get_team] only ever
    returns a map whose [teamId] reads like the requested identifier, and
    [get_match] a map whose [matchID] does; so the normalizers of these two
    operations pass the result on unchanged, never substituting an empty
    map. *)
Theorem lookups_return_the_requested_map (w w' : World) (id found : json) :
  (get_team str_repr config env id w = (Ok found, w') ->
   is_dict found = true /\
   same_id str_repr "teamId" id found = true /\
   _normalize_get_team found = [("team", found)]) /\
  (get_match str_repr config env id w = (Ok found, w') ->
   is_dict found = true /\
   same_id str_repr "matchID" id found = true /\
   _normalize_get_match found = [("match", found)]).
Proof.
  split; intros Hrun.
  - destruct (get_team_found _ _ _ _ Hrun) as [Hd Hid].
    unfold _normalize_get_team. rewrite Hd. auto.
  - destruct (get_match_found _ _ _ _ Hrun) as [Hd Hid].
    unfold _normalize_get_match. rewrite Hd. auto.
Qed.

End LookupCost.

(* ================================================================= *)
(** ** Properties of the registry and of the endpoint *)

Lemma lower_app (a b : string) :
  lower (a ++ b) = (lower a ++ lower b)%string.
Proof.
  induction a as [|c a IH]; simpl; [reflexivity | rewrite IH; reflexivity].
Qed.

Lemma contains_app_r (needle a b : string) :
  contains needle b = true -> contains needle (a ++ b) = true.
Proof.
  intros H. induction a as [|c a IH]; [exact H|].
  cbn [String.append contains]. rewrite IH. apply orb_true_r.
Qed.

Section Endpoint.

Variable str_repr : string -> string.
Variable detail_text : exn -> string.
Variable config : ProviderConfig.
Variable env : Env.

Lemma not_found_is_mentioned (id : json) :
  contains "not found"
    (lower (exn_message str_repr detail_text (ValueError (TeamNotFound id))))
  = true /\
  contains "not found"
    (lower (exn_message str_repr detail_text (ValueError (MatchNotFound id))))
  = true.
Proof.
  cbn [exn_message]. rewrite !lower_app.
  split; apply contains_app_r; apply contains_app_r; reflexivity.
Qed.

Lemma registry_entries (operation_type : string) :
  match get_operation str_repr config env operation_type with
  | Found operation =>
      In (operation_type, operation) (operations str_repr config env)
  | UnknownOperationType message =>
      message = ("Unknown operationType: " ++ operation_type)%string /\
      ~ In operation_type
          ["ListLeagues"; "GetLeagueMatches"; "GetTeam"; "GetMatch"]
  end.
Proof.
  unfold get_operation, operations. cbn [lookup_operation].
  destruct (String.eqb_spec "ListLeagues" operation_type) as [<- | H1];
    [left; reflexivity|].
  destruct (String.eqb_spec "GetLeagueMatches" operation_type) as [<- | H2];
    [right; left; reflexivity|].
  destruct (String.eqb_spec "GetTeam" operation_type) as [<- | H3];
    [right; right; left; reflexivity|].
  destruct (String.eqb_spec "GetMatch" operation_type) as [<- | H4];
    [right; right; right; left; reflexivity|].
  split; [reflexivity|]. simpl. intuition.
Qed.

(** X11.  Validation guards the execute step: for each of the four
    registered operations, a payload that its validator accepts never makes
    its execute step raise [KeyError]; and a payload without the field makes
    the execute step of the three operations that need one raise [KeyError]
    before anything is asked of the provider. *)
Theorem validated_payload_has_its_key (operation_type : string)
    (operation : Operation) (payload : pydict) (w : World) :
  In (operation_type, operation) (operations str_repr config env) ->
  (fst (validate operation payload) = true ->
   forall key, fst (execute operation payload w) <> Failed (KeyError key)) /\
  (forall field,
     In (operation_type, field)
        [("GetLeagueMatches", "leagueId"); ("GetTeam", "teamId");
         ("GetMatch", "matchId")] ->
     dict_lookup field payload = None ->
     execute operation payload w = (Failed (KeyError field), w)).
Proof.
  intros Hin. unfold operations in Hin. simpl in Hin.
  destruct Hin as [H | [H | [H | [H | []]]]]; inversion H; subst; clear H;
    cbn [validate execute]; split.
  - intros _ key. unfold _execute_list_leagues, from_provider.
    destruct (list_leagues config env w) as [[v | e] w']; discriminate.
  - intros field [H | [H | [H | []]]]; inversion H.
  - unfold _validate_get_league_matches, _execute_get_league_matches,
      dict_contains, dict_get, from_provider.
    destruct (dict_lookup "leagueId" payload) as [v|]; [|discriminate].
    intros _ key.
    destruct (get_league_matches config env _ w) as [[x | e] w'];
      discriminate.
  - intros field [H | [H | [H | []]]]; inversion H; subst.
    unfold _execute_get_league_matches. intros ->. reflexivity.
  - unfold _validate_get_team, _execute_get_team, dict_contains, dict_get,
      from_provider.
    destruct (dict_lookup "teamId" payload) as [v|]; [|discriminate].
    intros _ key.
    destruct (get_team str_repr config env v w) as [[x | e] w'];
      discriminate.
  - intros field [H | [H | [H | []]]]; inversion H; subst.
    unfold _execute_get_team. intros ->. reflexivity.
  - unfold _validate_get_match, _execute_get_match, dict_contains, dict_get,
      from_provider.
    destruct (dict_lookup "matchId" payload) as [v|]; [|discriminate].
    intros _ key.
    destruct (get_match str_repr config env v w) as [[x | e] w'];
      discriminate.
  - intros field [H | [H | [H | []]]]; inversion H; subst.
    unfold _execute_get_match. intros ->. reflexivity.
Qed.

(** The handlers around the execute step answer 400, 404, 500 or 502, with
    fixed texts for the last two. *)
Lemma on_failure_outcome (request_id operation_type : string) (latency : Q)
    (e : Raised) :
  exists status error_msg call,
    on_failure str_repr detail_text config request_id operation_type latency e
    = (HTTPException status [("error", JStr error_msg);
                             ("requestId", JStr request_id)], call) /\
    In status [400; 404; 500; 502]%Z /\
    (status = 500%Z -> error_msg = "Internal server error") /\
    (status = 502%Z -> error_msg = "Upstream API failed") /\
    log_request_id call = request_id /\
    log_operation_type call = operation_type /\
    log_final_outcome call = Some "error".
Proof.
  destruct e as [e | key]; [destruct e as [| | s | c | m | | | | |]|];
    cbn [on_failure];
    try (do 3 eexists; split; [reflexivity|]; simpl;
         repeat split; auto; intros; congruence).
  destruct (contains "not found"
              (lower (exn_message str_repr detail_text (ValueError m))));
    do 3 eexists; (split; [reflexivity|]); simpl;
    repeat split; auto; intros; congruence.
Qed.

(** X12.  Whatever the header, the operation, the payload and the upstream:
    the endpoint answers with a success carrying the request identifier, or
    with an [HTTPException] whose status is 400, 404, 500 or 502 and whose
    detail carries the request identifier; a 500 only ever says
    "Internal server error" and a 502 only "Upstream API failed". *)
Theorem endpoint_outcomes (x_request_id : option string) (uuid : string)
    (operation_type : string) (payload : pydict) (w : World) :
  let request_id := request_id_of x_request_id uuid in
  match fst (fst (execute_proxy str_repr detail_text config env
                    x_request_id uuid operation_type payload w)) with
  | ProxyResponse success data requestId =>
      success = true /\ requestId = request_id
  | HTTPException status detail =>
      In status [400; 404; 500; 502]%Z /\
      dict_lookup "requestId" detail = Some (JStr request_id) /\
      (exists error_msg, dict_lookup "error" detail = Some (JStr error_msg)) /\
      (status = 500%Z ->
       dict_lookup "error" detail = Some (JStr "Internal server error")) /\
      (status = 502%Z ->
       dict_lookup "error" detail = Some (JStr "Upstream API failed"))
  end.
Proof.
  cbv zeta. unfold execute_proxy.
  destruct (get_operation str_repr config env operation_type)
    as [operation | message].
  2:{ simpl. repeat split; auto; try (eexists; reflexivity);
      intros; congruence. }
  destruct (validate operation payload) as [[|] [details|]];
    try (simpl; repeat split; auto; try (eexists; reflexivity);
         intros; congruence).
  - destruct (execute operation payload _) as [[result | e] w1];
      [simpl; split; reflexivity|].
    destruct (on_failure_outcome (request_id_of x_request_id uuid)
                operation_type
                ((clock env (time_reads w1) - clock env (time_reads w)) * 1000)
                e)
      as (status & msg & call & -> & Hin & H500 & H502 & _).
    simpl. repeat split; auto; try (eexists; reflexivity);
      intros Hs; [rewrite (H500 Hs) | rewrite (H502 Hs)]; reflexivity.
  - destruct (execute operation payload _) as [[result | e] w1];
      [simpl; split; reflexivity|].
    destruct (on_failure_outcome (request_id_of x_request_id uuid)
                operation_type
                ((clock env (time_reads w1) - clock env (time_reads w)) * 1000)
                e)
      as (status & msg & call & -> & Hin & H500 & H502 & _).
    simpl. repeat split; auto; try (eexists; reflexivity);
      intros Hs; [rewrite (H500 Hs) | rewrite (H502 Hs)]; reflexivity.
Qed.

(** X13.  The audit trail of one call of the endpoint: exactly one record
    when the operation is unknown or its validator rejects the payload, and
    exactly two otherwise (the passed validation, then the result); every
    record bears the request
    identifier and the operation type; and the last record says "success"
    exactly when the endpoint answers with a success, "error" otherwise. *)
Theorem audit_trail_matches_outcome (x_request_id : option string)
    (uuid : string) (operation_type : string) (payload : pydict)
    (w : World) :
  let request_id := request_id_of x_request_id uuid in
  let run := fst (execute_proxy str_repr detail_text config env
                    x_request_id uuid operation_type payload w) in
  length (snd run) =
    match get_operation str_repr config env operation_type with
    | UnknownOperationType _ => 1%nat
    | Found operation =>
        if fst (validate operation payload) then 2%nat else 1%nat
    end /\
  Forall (fun call => log_request_id call = request_id /\
                      log_operation_type call = operation_type) (snd run) /\
  log_final_outcome (last (snd run) (audit request_id operation_type)) =
    Some (match fst run with
          | ProxyResponse _ _ _ => "success"
          | HTTPException _ _ => "error"
          end).
Proof.
  cbv zeta. unfold execute_proxy.
  destruct (get_operation str_repr config env operation_type)
    as [operation | message].
  2:{ simpl. split; [reflexivity|].
      split; [repeat constructor | reflexivity]. }
  destruct (validate operation payload) as [[|] [details|]];
    try (simpl; split; [reflexivity|];
         split; [repeat constructor | reflexivity]);
    (destruct (execute operation payload _) as [[result | e] w1];
     [simpl; split; [reflexivity|];
      split; [repeat constructor | reflexivity]|];
     destruct (on_failure_outcome (request_id_of x_request_id uuid)
                 operation_type
                 ((clock env (time_reads w1) - clock env (time_reads w)) * 1000)
                 e)
       as (status & msg & call & -> & _ & _ & _ & Hid & Hop & Hfin);
     simpl; split; [reflexivity|];
     split; [repeat constructor; assumption | exact Hfin]).
Qed.

End Endpoint.

Section EndpointPaths.

Variable str_repr : string -> string.
Variable detail_text : exn -> string.
Variable config : ProviderConfig.
Variable env : Env.

(** X14.  An operation type other than the four registered names (compared
    case-sensitively) is answered with 400 and the message
    "Unknown operationType: <name>", before anything else is done: no
    request is made, the bucket is untouched and nothing is slept. *)
Theorem unknown_operation_is_rejected_before_any_work
    (x_request_id : option string) (uuid : string) (operation_type : string)
    (payload : pydict) (w : World) :
  ~ In operation_type
      ["ListLeagues"; "GetLeagueMatches"; "GetTeam"; "GetMatch"] ->
  let run := execute_proxy str_repr detail_text config env
               x_request_id uuid operation_type payload w in
  fst (fst run) =
    HTTPException 400
      [("error", JStr ("Unknown operationType: " ++ operation_type)%string);
       ("requestId", JStr (request_id_of x_request_id uuid))] /\
  requests (snd run) = requests w /\
  rate_limiter (snd run) = rate_limiter w /\
  slept (snd run) = slept w.
Proof.
  intros Hnot run. subst run. unfold execute_proxy.
  pose proof (registry_entries str_repr config env operation_type) as Hreg.
  destruct (get_operation str_repr config env operation_type)
    as [operation | message].
  - exfalso. apply Hnot. unfold operations in Hreg. simpl in Hreg.
    destruct Hreg as [H | [H | [H | [H | []]]]]; inversion H; simpl; auto.
  - destruct Hreg as [-> _]. simpl. repeat split.
Qed.

Lemma rejected_field (field : string) (payload : pydict) :
  absent_or_falsy field payload = true ->
  negb (dict_contains field payload)
  || negb (truthy (dict_get field JNull payload)) = true.
Proof.
  intros H. rewrite <- validate_field_spec in H.
  destruct (negb _ || negb _); [reflexivity | discriminate].
Qed.

(** X15.  A payload whose required field is absent or has a false truth
    value is answered with 400 "Validation failed" and the details naming
    the field, before the provider is involved: no request is made, the
    bucket is untouched and nothing is slept. *)
Theorem invalid_payload_is_rejected_before_any_work
    (x_request_id : option string) (uuid : string)
    (operation_type field : string) (payload : pydict) (w : World) :
  In (operation_type, field)
     [("GetLeagueMatches", "leagueId"); ("GetTeam", "teamId");
      ("GetMatch", "matchId")] ->
  absent_or_falsy field payload = true ->
  let run := execute_proxy str_repr detail_text config env
               x_request_id uuid operation_type payload w in
  fst (fst run) =
    HTTPException 400
      [("error", JStr "Validation failed");
       ("details", JDict [("missing_field", JStr field);
                          ("reason", JStr (field ++ " is required")%string)]);
       ("requestId", JStr (request_id_of x_request_id uuid))] /\
  requests (snd run) = requests w /\
  rate_limiter (snd run) = rate_limiter w /\
  slept (snd run) = slept w.
Proof.
  intros Hin Hbad run. subst run.
  pose proof (rejected_field field payload Hbad) as Hrej.
  destruct Hin as [H | [H | [H | []]]]; inversion H; subst; clear H;
    unfold execute_proxy, get_operation, operations;
    cbn [lookup_operation String.eqb Ascii.eqb Bool.eqb andb validate];
    [unfold _validate_get_league_matches
    | unfold _validate_get_team
    | unfold _validate_get_match];
    rewrite Hrej; simpl; repeat split.
Qed.

(** X16.  GetTeam and GetMatch never answer 500 or 502.  Whatever the
    payload and the upstream, the endpoint answers them with 400
    "Validation failed", or with a success whose data is the single entry
    [team] (or [match]) holding a map, or with 404: every failure of the
    upstream, of whatever kind, comes out as "not found". *)
Theorem lookup_operations_answer_200_or_404
    (x_request_id : option string) (uuid : string)
    (operation_type key : string) (payload : pydict) (w : World) :
  In (operation_type, key) [("GetTeam", "team"); ("GetMatch", "match")] ->
  let request_id := request_id_of x_request_id uuid in
  let outcome := fst (fst (execute_proxy str_repr detail_text config env
                             x_request_id uuid operation_type payload w)) in
  (exists details,
     outcome = HTTPException 400 [("error", JStr "Validation failed");
                                  ("details", JDict details);
                                  ("requestId", JStr request_id)]) \/
  (exists found,
     is_dict found = true /\
     outcome = ProxyResponse true [(key, found)] request_id) \/
  (exists error_msg,
     outcome = HTTPException 404 [("error", JStr error_msg);
                                  ("requestId", JStr request_id)]).
Proof.
  intros Hin request_id outcome. subst request_id outcome.
  destruct Hin as [H | [H | []]]; inversion H; subst; clear H;
    unfold execute_proxy, get_operation, operations;
    cbn [lookup_operation String.eqb Ascii.eqb Bool.eqb andb validate
           execute normalize].
  - unfold _validate_get_team, _execute_get_team, dict_contains, dict_get.
    destruct (dict_lookup "teamId" payload) as [v|];
      [|left; eexists; reflexivity].
    destruct (truthy v); [|left; eexists; reflexivity].
    cbn [negb orb]. unfold from_provider.
    match goal with |- context [get_team str_repr config env v ?w2] =>
      destruct (get_team str_repr config env v w2) as [[found | e] w3] eqn:E
    end.
    + destruct (get_team_found _ _ _ _ _ _ _ E) as [Hd _].
      right; left. exists found. split; [exact Hd|]. simpl.
      unfold _normalize_get_team. rewrite Hd. reflexivity.
    + rewrite (get_team_raises_not_found _ _ _ _ _ _ _ E).
      right; right. cbn [on_failure fst].
      destruct (not_found_is_mentioned str_repr detail_text v) as [-> _].
      eexists. reflexivity.
  - unfold _validate_get_match, _execute_get_match, dict_contains, dict_get.
    destruct (dict_lookup "matchId" payload) as [v|];
      [|left; eexists; reflexivity].
    destruct (truthy v); [|left; eexists; reflexivity].
    cbn [negb orb]. unfold from_provider.
    match goal with |- context [get_match str_repr config env v ?w2] =>
      destruct (get_match str_repr config env v w2) as [[found | e] w3] eqn:E
    end.
    + destruct (get_match_found _ _ _ _ _ _ _ E) as [Hd _].
      right; left. exists found. split; [exact Hd|]. simpl.
      unfold _normalize_get_match. rewrite Hd. reflexivity.
    + rewrite (get_match_raises_not_found _ _ _ _ _ _ _ E).
      right; right. cbn [on_failure fst].
      destruct (not_found_is_mentioned str_repr detail_text v) as [_ ->].
      eexists. reflexivity.
Qed.

(** X17.  ListLeagues against an upstream that answers every attempt with
    status 429 or 5xx (non-zero rate, [0 <= MAX_RETRIES <= 1024], the status
    check raising on those responses): after all [MAX_RETRIES + 1] requests the
    endpoint answers 502 with "Upstream API failed"; the upstream's own
    status is not passed on. *)
Theorem persistent_upstream_failure_is_answered_502
    (x_request_id : option string) (uuid : string) (payload : pydict)
    (w : World) :
  ~ rate (rate_limiter w) == 0 ->
  (0 <= MAX_RETRIES config <= 1024)%Z ->
  (forall k, (Z.of_nat k <= MAX_RETRIES config)%Z ->
     exists r,
       upstream env "GET" "/getavailableleagues" (requests w + k) = Returns r /\
       retryable_status r = true /\ is_error r = true) ->
  let run := execute_proxy str_repr detail_text config env
               x_request_id uuid "ListLeagues" payload w in
  fst (fst run) =
    HTTPException 502 [("error", JStr "Upstream API failed");
                       ("requestId", JStr (request_id_of x_request_id uuid))] /\
  requests (snd run)
    = (requests w + Z.to_nat (MAX_RETRIES config) + 1)%nat.
Proof.
  intros Hrate Hmax Hall run. subst run.
  unfold execute_proxy, get_operation, operations.
  cbn [lookup_operation String.eqb Ascii.eqb Bool.eqb andb validate
         execute normalize _validate_list_leagues].
  unfold _execute_list_leagues, from_provider, list_leagues, bind.
  set (w2 := snd (time_time env (snd (time_time env w)))).
  assert (Hrate2 : ~ rate (rate_limiter w2) == 0) by exact Hrate.
  destruct (all_retryable_runs_out config env "GET" "/getavailableleagues"
              w2 Hrate2 Hmax) as [Hcnt Hres].
  { intros k Hk. change (requests w2) with (requests w).
    destruct (Hall k Hk) as (r & -> & Hs & _). simpl.
    split; [|exact Hs]. unfold html_200. unfold retryable_status in Hs.
    destruct (status_code r =? 200)%Z eqn:E; [|apply andb_false_r].
    apply Z.eqb_eq in E. rewrite E in Hs. discriminate. }
  change (requests w2) with (requests w) in Hcnt, Hres.
  destruct (Hall (Z.to_nat (MAX_RETRIES config))) as (r & Hout & _ & He);
    [lia|].
  rewrite Hout in Hres.
  destruct (_request_with_retry config env "GET" "/getavailableleagues" w2)
    as [res w3]. simpl in Hres, Hcnt. subst res.
  unfold parse_body, bind, raise_for_status, raise. rewrite He.
  simpl. split; [reflexivity | exact Hcnt].
Qed.

(** X18.  A body that parses but is not a list is answered as if the
    upstream had nothing: when the fetch behind ListLeagues or
    GetLeagueMatches returns a value that is not a list, the endpoint
    answers with a success holding an empty list and count 0. *)
Theorem non_list_body_is_answered_as_empty
    (x_request_id : option string) (uuid : string) (payload : pydict)
    (w w' : World) (data : json) :
  is_list data = false ->
  let request_id := request_id_of x_request_id uuid in
  let started := snd (time_time env (snd (time_time env w))) in
  (list_leagues config env started = (Ok data, w') ->
   fst (fst (execute_proxy str_repr detail_text config env
               x_request_id uuid "ListLeagues" payload w))
   = ProxyResponse true [("leagues", JList []); ("count", JInt 0)]
       request_id) /\
  (forall league_id,
     dict_lookup "leagueId" payload = Some league_id ->
     truthy league_id = true ->
     get_league_matches config env (py_str str_repr league_id) started
       = (Ok data, w') ->
     fst (fst (execute_proxy str_repr detail_text config env
                 x_request_id uuid "GetLeagueMatches" payload w))
     = ProxyResponse true [("matches", JList []); ("count", JInt 0)]
         request_id).
Proof.
  intros Hshape request_id started. subst request_id started. split.
  - intros Hrun.
    unfold execute_proxy, get_operation, operations.
    cbn [lookup_operation String.eqb Ascii.eqb Bool.eqb andb validate
           execute normalize _validate_list_leagues].
    unfold _execute_list_leagues, from_provider. rewrite Hrun.
    cbn [fst]. unfold _normalize_list_leagues. rewrite Hshape. reflexivity.
  - intros league_id Hkey Htruthy Hrun.
    unfold execute_proxy, get_operation, operations.
    cbn [lookup_operation String.eqb Ascii.eqb Bool.eqb andb validate
           execute normalize].
    unfold _validate_get_league_matches, _execute_get_league_matches,
      dict_contains, dict_get, from_provider.
    rewrite Hkey, Htruthy. cbn [negb orb]. rewrite Hrun.
    cbn [fst]. unfold _normalize_get_league_matches. rewrite Hshape.
    reflexivity.
Qed.

End EndpointPaths.

(* ================================================================= *)
(** ** Properties of the request log *)

Lemma dict_set_lookup (key key' : string) (v : json) (d : pydict) :
  dict_lookup key' (dict_set key v d) =
  if String.eqb key key' then Some v else dict_lookup key' d.
Proof.
  induction d as [|[k x] rest IH]; simpl.
  - destruct (String.eqb key key'); reflexivity.
  - destruct (String.eqb_spec k key) as [-> | Hk]; simpl.
    + destruct (String.eqb key key'); reflexivity.
    + destruct (String.eqb_spec k key') as [-> | Hk'].
      * destruct (String.eqb_spec key key') as [E | _];
          [congruence | reflexivity].
      * exact IH.
Qed.

Lemma sanitize_loop_lookup (key : string) (items : list (string * string)) :
  forall d,
    dict_lookup key (sanitize_loop items d) =
    match last_value key items with
    | Some v =>
        Some (JStr (if str_in (lower key) SENSITIVE_HEADERS
                    then "[REDACTED]" else v))
    | None => dict_lookup key d
    end.
Proof.
  induction items as [|[k v] rest IH]; intros d; [reflexivity|].
  cbn [sanitize_loop last_value]. rewrite IH.
  destruct (last_value key rest) as [v'|]; [reflexivity|].
  destruct (str_in (lower k) SENSITIVE_HEADERS) eqn:Hs; cbn [negb];
    rewrite dict_set_lookup;
    (destruct (String.eqb_spec k key) as [-> | _];
     [rewrite Hs; reflexivity | reflexivity]).
Qed.

(** X19.  What [_log_request] logs of the headers: every header name of the
    request and no other; under a name that is, in any letter case, one of
    the sensitive ones, always "[REDACTED]"; under any other name, the value
    the request gave last for it. *)
Theorem logged_headers_are_redacted (headers : list (string * string))
    (method path request_id : string) (body_size : Z)
    (body_preview : option string) :
  exists logged,
    dict_lookup "headers"
      (_log_request headers method path request_id body_size body_preview)
    = Some (JDict logged) /\
    forall key,
      dict_lookup key logged =
      match last_value key headers with
      | Some v =>
          Some (JStr (if str_in (lower key) SENSITIVE_HEADERS
                      then "[REDACTED]" else v))
      | None => None
      end.
Proof.
  exists (sanitize_loop headers []). split.
  - unfold _log_request.
    destruct body_preview as [preview|]; [|reflexivity].
    destruct (truthy (JStr preview)); [|reflexivity].
    rewrite dict_set_lookup. reflexivity.
  - intros key. rewrite sanitize_loop_lookup.
    destruct (last_value key headers); reflexivity.
Qed.

Lemma str_take_length (n : nat) (s : string) :
  String.length (str_take n s) = Nat.min n (String.length s).
Proof.
  revert s. induction n as [|n IH]; intros [|c s]; simpl; try reflexivity.
  rewrite IH. reflexivity.
Qed.

Lemma str_take_prefix (n : nat) (s : string) :
  String.prefix (str_take n s) s = true.
Proof.
  revert s. induction n as [|n IH]; intros [|c s]; simpl; try reflexivity.
  destruct (ascii_dec c c) as [_ | H]; [apply IH | congruence].
Qed.

(** X20.  The body preview: at most 500 characters, always the beginning of
    the decoded body, and all of it when the body has at most 500
    characters; "[BINARY]" when the body does not decode. *)
Theorem preview_is_a_bounded_prefix (decoded : option string) :
  (String.length (preview_of decoded) <= 500)%nat /\
  match decoded with
  | Some body_str =>
      String.prefix (preview_of decoded) body_str = true /\
      ((String.length body_str <= 500)%nat -> preview_of decoded = body_str)
  | None => preview_of decoded = "[BINARY]"
  end.
Proof.
  destruct decoded as [body_str|]; [|split; [simpl; lia | reflexivity]].
  unfold preview_of.
  destruct (Nat.ltb_spec 500 (String.length body_str)) as [Hlong | Hshort].
  - split; [rewrite str_take_length; lia|].
    split; [apply str_take_prefix | lia].
  - split; [exact Hshort|]. split; [|reflexivity].
    rewrite <- (str_take_prefix (String.length body_str) body_str) at 1.
    f_equal. clear Hshort.
    induction body_str as [|c s IH]; simpl; [reflexivity|].
    rewrite <- IH. reflexivity.
Qed.

(* ================================================================= *)
(** ** How the layers compose *)

Section Composition.

Variable str_repr : string -> string.
Variable detail_text : exn -> string.
Variable config : ProviderConfig.
Variable env : Env.

Lemma backoff_and_sleep_effect (attempt : Z) (w : World) :
  (attempt < 1024)%Z ->
  exists w2,
    backoff_and_sleep config env attempt w = (Ok tt, w2) /\
    requests w2 = requests w /\
    rate_limiter w2 = rate_limiter w /\
    forall (A : Type) (k : M A),
      (delay <- _calculate_backoff_delay config env attempt ;;
       asyncio_sleep delay ;;; k) w = k w2.
Proof.
  intros Ha. unfold backoff_and_sleep.
  destruct (JITTER_ENABLED config) eqn:Hj; eexists;
    (split; [unfold bind; rewrite (backoff_below_overflow _ _ _ _ Ha);
             cbv zeta; rewrite Hj; reflexivity|];
     split; [reflexivity|]; split; [reflexivity|];
     intros A k; unfold bind; rewrite (backoff_below_overflow _ _ _ _ Ha);
     cbv zeta; rewrite Hj; reflexivity).
Qed.

(** X21.  One retry, step by step.  With a non-zero rate and
    [MAX_RETRIES >= 1], when the first attempt is answered with a retryable
    response or a network fault and the second with a response that is
    final, the call is exactly: [acquire], request, backoff delay of
    attempt 0 slept, [acquire], request; it returns the second response. *)
Theorem one_retry_then_answer (method url : string) (w : World)
    (r : Response) :
  ~ rate (rate_limiter w) == 0 ->
  (1 <= MAX_RETRIES config)%Z ->
  retryable (upstream env method url (requests w)) ->
  upstream env method url (S (requests w)) = Returns r ->
  html_200 r = false ->
  retryable_status r = false ->
  let asked := request_made (snd (acquire env w)) in
  let rested := snd (backoff_and_sleep config env 0 asked) in
  _request_with_retry config env method url w =
    (Ok r, request_made (snd (acquire env rested))).
Proof.
  intros Hrate Hmax Hfirst Hsecond Hh Hs asked rested. subst asked rested.
  unfold _request_with_retry, range.
  replace (Z.to_nat (MAX_RETRIES config + 1))
    with (S (S (Z.to_nat (MAX_RETRIES config - 1)))) by lia.
  cbn [seq map]. rewrite retry_loop_step.
  destruct (acquire_effect env w) as (w1 & Hreq & Hrate1 & [Hrun | [_ Hzero]]);
    [|contradiction].
  rewrite Hrun. cbn [snd]. rewrite Hreq.
  assert (Hlt : (Z.of_nat 0 <? MAX_RETRIES config)%Z = true)
    by (apply Z.ltb_lt; simpl; lia).
  assert (Hsmall : (Z.of_nat 0 < 1024)%Z) by (simpl; lia).
  destruct (backoff_and_sleep_effect (Z.of_nat 0) (request_made w1) Hsmall)
    as (w2 & Hb & Hreq2 & Hrl2 & Hk).
  change (Z.of_nat 0) with 0%Z in *. rewrite Hb. cbn [snd].
  assert (Hnext : forall le resp,
            retry_loop config env method url
              (Z.of_nat 1 :: map Z.of_nat (seq 2 (Z.to_nat (MAX_RETRIES config - 1))))
              le resp w2
            = (Ok r, request_made (snd (acquire env w2)))).
  { intros le resp. rewrite retry_loop_step.
    destruct (acquire_effect env w2) as (w3 & Hreq3 & _ & [Hrun3 | [_ Hzero]]).
    - rewrite Hrun3. cbn [snd]. rewrite Hreq3, Hreq2. simpl requests.
      rewrite Hreq, Hsecond, Hh, Hs. reflexivity.
    - exfalso. apply Hrate. rewrite <- Hrate1.
      rewrite Hrl2 in Hzero. exact Hzero. }
  destruct (upstream env method url (requests w)) as [r0 | e0];
    simpl in Hfirst.
  - destruct Hfirst as [Hh0 Hs0]. rewrite Hh0, Hs0, Hlt, Hk. apply Hnext.
  - rewrite Hfirst, Hlt, Hk. apply Hnext.
Qed.

(** X22.  A 200 answer with a blank body, seen from the endpoint (non-zero
    rate, [MAX_RETRIES >= 0]): when the first answer to ListLeagues is final,
    passes the status check and has a text of white space only, the
    endpoint answers 400 with "Empty response from API", after that single
    request. *)
Theorem blank_body_is_answered_400 (x_request_id : option string)
    (uuid : string) (payload : pydict) (w : World) (r : Response) :
  ~ rate (rate_limiter w) == 0 ->
  (0 <= MAX_RETRIES config)%Z ->
  upstream env "GET" "/getavailableleagues" (requests w) = Returns r ->
  html_200 r = false ->
  retryable_status r = false ->
  is_error r = false ->
  is_blank (text r) = true ->
  let run := execute_proxy str_repr detail_text config env
               x_request_id uuid "ListLeagues" payload w in
  fst (fst run) =
    HTTPException 400 [("error", JStr "Empty response from API");
                       ("requestId", JStr (request_id_of x_request_id uuid))] /\
  requests (snd run) = S (requests w).
Proof.
  intros Hrate Hmax Hout Hh Hs He Hb run. subst run.
  unfold execute_proxy, get_operation, operations.
  cbn [lookup_operation String.eqb Ascii.eqb Bool.eqb andb validate
         execute normalize _validate_list_leagues].
  unfold _execute_list_leagues, from_provider, list_leagues, bind.
  set (w2 := snd (time_time env (snd (time_time env w)))).
  assert (Hrun : _request_with_retry config env "GET" "/getavailableleagues" w2
                 = (Ok r, request_made (snd (acquire env w2)))).
  { unfold _request_with_retry, range.
    replace (Z.to_nat (MAX_RETRIES config + 1))
      with (S (Z.to_nat (MAX_RETRIES config))) by lia.
    cbn [seq map]. rewrite retry_loop_step.
    destruct (acquire_effect env w2) as (w3 & Hreq & _ & [Hacq | [_ Hzero]]);
      [|contradiction].
    rewrite Hacq. cbn [snd]. rewrite Hreq.
    change (requests w2) with (requests w). rewrite Hout, Hh, Hs.
    reflexivity. }
  rewrite Hrun.
  unfold parse_body, bind, raise_for_status, raise, ret. rewrite He, Hb.
  cbn [fst snd on_failure exn_message].
  destruct (acquire_counters env w2) as [Hreq _].
  split; [reflexivity|]. simpl. rewrite Hreq. reflexivity.
Qed.

End Composition.

(* ================================================================= *)
(** ** The further properties at work *)

Lemma fresh_bucket_inv : bucket_inv env_bl1_down world_bl1_down.
Proof.
  unfold bucket_inv, within. simpl.
  repeat split; try (unfold Qle; simpl; lia).
  constructor; [split; unfold Qle; simpl; lia | constructor].
Defined.

(** Five calls in a row on a full bucket of capacity 5. *)
Lemma burst_is_admitted_without_waiting_witness :
  fst (acquire_each env_bl1_down 5 world_bl1_down) = repeat (Ok tt) 5 /\
  slept (snd (acquire_each env_bl1_down 5 world_bl1_down)) = [].
Proof.
  apply (burst_is_admitted_without_waiting env_bl1_down 5 world_bl1_down).
  - exact clock_ticks_monotone.
  - exact fresh_bucket_inv.
  - unfold Qle; simpl; lia.
Defined.

(** A call on a bucket of rate 1/4 waits at most 4 seconds. *)
Lemma acquire_waits_at_most_one_period_witness :
  exists w1,
    acquire env_bl1_down world_bl1_down = (Ok tt, w1) /\
    (slept w1 = slept world_bl1_down \/
     exists d, slept w1 = d :: slept world_bl1_down /\
               0 < d /\ d <= 1 / (1 # 4)).
Proof.
  apply (acquire_waits_at_most_one_period env_bl1_down world_bl1_down).
  - exact fresh_bucket_inv.
  - reflexivity.
Defined.

(** The matches of bl2 are returned by the first request. *)
Lemma first_answer_is_returned_at_once_witness :
  _request_with_retry default_config env_bl1_down "GET" "/getmatchdata/bl2"
    world_bl1_down
  = (Ok (json_response bl2_matches),
     request_made (snd (acquire env_bl1_down world_bl1_down))).
Proof.
  apply (first_answer_is_returned_at_once default_config env_bl1_down
           "GET" "/getmatchdata/bl2" world_bl1_down).
  - intros H. vm_compute in H. discriminate H.
  - simpl. lia.
  - reflexivity.
  - reflexivity.
  - reflexivity.
Defined.

(** The list of leagues answers 500 throughout: four requests, then
    [HTTPStatusError] 500. *)
Lemma persistent_failure_surfaces_after_all_attempts_witness :
  exists r,
    fst (list_leagues default_config env_bl1_down world_bl1_down)
      = Raise (HTTPStatusError (status_code r)) /\
    status_code r = 500%Z /\
    requests (snd (list_leagues default_config env_bl1_down world_bl1_down))
      = 4%nat.
Proof.
  destruct (persistent_failure_surfaces_after_all_attempts
              default_config env_bl1_down world_bl1_down)
    as [Hstatus _].
  - intros H. vm_compute in H. discriminate H.
  - simpl. lia.
  - destruct Hstatus as (r & Hout & Hres & Hcnt).
    + intros k _. exists (error_response 500). repeat split.
    + exists r. split; [exact Hres|]. split; [|exact Hcnt].
      simpl in Hout. inversion Hout. reflexivity.
Defined.

(** With [MAX_RETRIES = -1] a team lookup asks nothing and finds nothing. *)
Lemma negative_max_retries_never_asks_witness :
  get_team plain_repr config_no_attempt env_bl1_down (JStr "X")
    (OpenLigaProvider_init config_no_attempt env_bl1_down)
  = (Raise (ValueError (TeamNotFound (JStr "X"))),
     OpenLigaProvider_init config_no_attempt env_bl1_down).
Proof.
  destruct (negative_max_retries_never_asks plain_repr config_no_attempt
              env_bl1_down
              (OpenLigaProvider_init config_no_attempt env_bl1_down))
    as (_ & _ & Hteam & _).
  - simpl. lia.
  - exact (Hteam (JStr "X")).
Defined.

(** GetTeam on an empty payload fails on the key, the world untouched. *)
Lemma validated_payload_has_its_key_witness :
  execute get_team_entry [] world_bl1_down
  = (Failed (KeyError "teamId"), world_bl1_down).
Proof.
  destruct (validated_payload_has_its_key plain_repr default_config
              env_bl1_down "GetTeam" get_team_entry
              [] world_bl1_down) as [_ Hkey].
  - right; right; left. reflexivity.
  - apply Hkey; [right; left; reflexivity | reflexivity].
Defined.

(** Operation names are case-sensitive. *)
Lemma unknown_operation_is_rejected_before_any_work_witness :
  fst (fst (execute_proxy plain_repr no_detail default_config env_bl1_down
              (Some "r-1") "u-1" "listleagues" [] world_bl1_down))
  = HTTPException 400
      [("error", JStr "Unknown operationType: listleagues");
       ("requestId", JStr "r-1")].
Proof.
  apply (unknown_operation_is_rejected_before_any_work plain_repr no_detail
           default_config env_bl1_down (Some "r-1") "u-1" "listleagues" []
           world_bl1_down).
  simpl. intros [H | [H | [H | [H | []]]]]; discriminate H.
Defined.

(** A team identifier of 0 is rejected. *)
Lemma invalid_payload_is_rejected_before_any_work_witness :
  fst (fst (execute_proxy plain_repr no_detail default_config env_bl1_down
              None "u-1" "GetTeam" [("teamId", JInt 0)] world_bl1_down))
  = HTTPException 400
      [("error", JStr "Validation failed");
       ("details", JDict [("missing_field", JStr "teamId");
                          ("reason", JStr "teamId is required")]);
       ("requestId", JStr "u-1")].
Proof.
  apply (invalid_payload_is_rejected_before_any_work plain_repr no_detail
           default_config env_bl1_down None "u-1" "GetTeam" "teamId"
           [("teamId", JInt 0)] world_bl1_down).
  - right; left. reflexivity.
  - reflexivity.
Defined.

(** GetMatch for a match of bl2, with bl1 down. *)
Lemma lookup_operations_answer_200_or_404_witness :
  let outcome :=
    fst (fst (execute_proxy plain_repr no_detail default_config env_bl1_down
                None "u-1" "GetMatch" [("matchId", JStr "7")]
                world_bl1_down)) in
  (exists details,
     outcome = HTTPException 400 [("error", JStr "Validation failed");
                                  ("details", JDict details);
                                  ("requestId", JStr "u-1")]) \/
  (exists found,
     is_dict found = true /\
     outcome = ProxyResponse true [("match", found)] "u-1") \/
  (exists error_msg,
     outcome = HTTPException 404 [("error", JStr error_msg);
                                  ("requestId", JStr "u-1")]).
Proof.
  apply (lookup_operations_answer_200_or_404 plain_repr no_detail
           default_config env_bl1_down None "u-1" "GetMatch" "match"
           [("matchId", JStr "7")] world_bl1_down).
  right; left. reflexivity.
Defined.

(** ListLeagues against the upstream that answers 500 throughout. *)
Lemma persistent_upstream_failure_is_answered_502_witness :
  fst (fst (execute_proxy plain_repr no_detail default_config env_bl1_down
              None "u-1" "ListLeagues" [] world_bl1_down))
  = HTTPException 502 [("error", JStr "Upstream API failed");
                       ("requestId", JStr "u-1")].
Proof.
  apply (persistent_upstream_failure_is_answered_502 plain_repr no_detail
           default_config env_bl1_down None "u-1" [] world_bl1_down).
  - intros H. vm_compute in H. discriminate H.
  - simpl. lia.
  - intros k _. exists (error_response 500). repeat split.
Defined.

(** ListLeagues against an upstream that serves a JSON object. *)
Lemma non_list_body_is_answered_as_empty_witness :
  fst (fst (execute_proxy plain_repr no_detail default_config
              env_object_body None "u-1" "ListLeagues" []
              world_object_body))
  = ProxyResponse true [("leagues", JList []); ("count", JInt 0)] "u-1".
Proof.
  destruct (non_list_body_is_answered_as_empty plain_repr no_detail
              default_config env_object_body None "u-1" []
              world_object_body
              (snd (list_leagues default_config env_object_body
                      (snd (time_time env_object_body
                              (snd (time_time env_object_body
                                      world_object_body))))))
              object_body)
    as [Hleagues _].
  - reflexivity.
  - apply Hleagues. vm_compute. reflexivity.
Defined.

(** A request with credentials, as logged. *)
Example credentials_are_not_logged :
  dict_lookup "headers"
    (_log_request [("host", "proxy.local"); ("Authorization", "Bearer s3cret");
                   ("x-trace", "a"); ("cookie", "sid=1"); ("x-trace", "b")]
       "POST" "/proxy/execute" "r-1" 2 (Some "{}"))
  = Some (JDict [("host", JStr "proxy.local");
                 ("Authorization", JStr "[REDACTED]");
                 ("x-trace", JStr "b");
                 ("cookie", JStr "[REDACTED]")]).
Proof. reflexivity. Qed.

Example team_lookup_with_everything_down_is_404 :
  fst (fst (execute_proxy plain_repr no_detail default_config
              env_protocol_error None "u-1" "GetTeam"
              [("teamId", JStr "40")] world_protocol_error))
  = HTTPException 404
      [("error",
        JStr "Team 40 not found. OpenLiga API requires searching through league matches. Consider using get_league_matches with a specific leagueId and extracting team information from matches.");
       ("requestId", JStr "u-1")].
Proof. vm_compute. reflexivity. Qed.

(** 429, then the matches of bl2. *)
Lemma one_retry_then_answer_witness :
  fst (_request_with_retry default_config env_429_then_ok "GET"
         "/getmatchdata/bl2"
         (OpenLigaProvider_init default_config env_429_then_ok))
  = Ok (json_response bl2_matches).
Proof.
  rewrite (one_retry_then_answer default_config env_429_then_ok "GET"
             "/getmatchdata/bl2"
             (OpenLigaProvider_init default_config env_429_then_ok)
             (json_response bl2_matches)).
  - reflexivity.
  - intros H. vm_compute in H. discriminate H.
  - simpl. lia.
  - simpl. split; reflexivity.
  - reflexivity.
  - reflexivity.
  - reflexivity.
Defined.

(** ListLeagues against an upstream that answers 200 with a blank body. *)
Lemma blank_body_is_answered_400_witness :
  fst (fst (execute_proxy plain_repr no_detail default_config env_blank_body
              None "u-1" "ListLeagues" []
              (OpenLigaProvider_init default_config env_blank_body)))
  = HTTPException 400 [("error", JStr "Empty response from API");
                       ("requestId", JStr "u-1")].
Proof.
  apply (blank_body_is_answered_400 plain_repr no_detail default_config
           env_blank_body None "u-1" []
           (OpenLigaProvider_init default_config env_blank_body)
           blank_response).
  - intros H. vm_compute in H. discriminate H.
  - simpl. lia.
  - reflexivity.
  - reflexivity.
  - reflexivity.
  - reflexivity.
  - reflexivity.
Defined.

(** Two thousand retries against a league that answers 500 throughout: the
    call gives up on the overflow. *)
Lemma backoff_overflow_ends_the_retries_witness :
  fst (_request_with_retry config_many_retries env_bl1_down
         "GET" "/getmatchdata/pl" world_bl1_down) = Raise OverflowError.
Proof.
  destruct (backoff_overflow_ends_the_retries config_many_retries
              env_bl1_down "GET" "/getmatchdata/pl" world_bl1_down)
    as [Hres _].
  - intros H. vm_compute in H. discriminate H.
  - simpl. lia.
  - intros k _. simpl. split; reflexivity.
  - exact Hres.
Defined.
